(** * server-tcp: configuration, construction and stop of a TCP server

    A shallow embedding of [server.go].  The package builds an [options]
    record from a list of functional options, validates the listen address,
    creates an engine ([tcpserver.Server]) and tunes it; [AwaitStopSignal]
    waits for a termination signal and shuts the engine down.

    Conventions of the embedding:
    - a Go [int] is a [Z] (the code compares and stores integers, it performs
      no arithmetic on them, so no wrap-around ever happens);
    - a pointer field [*T] of [options] is an [option T]: [None] is the nil
      pointer.  Nothing in the package writes through these pointers, so the
      pointee is represented by its value;
    - an [Option] receives [*options] and may fail: it is a function from the
      record before the call to the record after the call and the returned
      [error];
    - calls that leave the package (the [net] package, the engine) are
      recorded, in program order, in a trace of [event]s. *)

From Stdlib Require Import ZArith List String Ascii Bool Lia DecimalString.
From Stdlib Require Import DecimalZ Permutation.
From Stdlib.Strings Require Import Byte.
From ITree Require ITree ITreeFacts Events.State Events.StateFacts.
Import ListNotations.

Local Open Scope string_scope.
Local Open Scope list_scope.
Local Open Scope Z_scope.

(** ** Values of the Go program *)

(** [error] values.  [Errorf] is [fmt.Errorf] with a constant message,
    [Wrapf msg err] is [fmt.Errorf(msg + ": %w", err)], [ParseError] is
    [*net.ParseError], [ForeignError] is any error made by the [net] package
    or by the engine. *)
Inductive error : Type :=
| Errorf (msg : string)
| Wrapf (msg : string) (err : error)
| ParseError (kind text : string)
| ForeignError (msg : string).

(** [net.IP] is a byte slice; the nil slice is the empty list. *)
Definition IP : Type := list byte.

(** [tcpserver.RequestHandlerFunc].  The package never calls a handler: it
    compares it with nil and passes it to the engine, so a function value is
    represented by an identity. *)
Inductive RequestHandlerFunc : Type :=
| HandlerFunc (id : nat).

(** [time.Duration], in nanoseconds. *)
Definition Duration : Type := Z.

(** The [options] struct. *)
Record options : Type := mkOptions {
  host : option IP;
  port : option Z;
  socketReusePort : option bool;
  socketFastOpen : option bool;
  socketFastOpenQueueLen : option Z;
  socketDeferAccept : option bool;
  loops : option Z;
  workerpoolShards : option Z;
  allowThreadLocking : option bool;
  ballast : option Z;
  handler : option RequestHandlerFunc
}.

(** [var opt options]: every field is nil. *)
Definition zero_options : options :=
  mkOptions None None None None None None None None None None None.

(** Assignments [options.f = v]. *)
Definition set_host v (o : options) : options :=
  mkOptions v (port o) (socketReusePort o) (socketFastOpen o)
    (socketFastOpenQueueLen o) (socketDeferAccept o) (loops o)
    (workerpoolShards o) (allowThreadLocking o) (ballast o) (handler o).
Definition set_port v (o : options) : options :=
  mkOptions (host o) v (socketReusePort o) (socketFastOpen o)
    (socketFastOpenQueueLen o) (socketDeferAccept o) (loops o)
    (workerpoolShards o) (allowThreadLocking o) (ballast o) (handler o).
Definition set_socketReusePort v (o : options) : options :=
  mkOptions (host o) (port o) v (socketFastOpen o)
    (socketFastOpenQueueLen o) (socketDeferAccept o) (loops o)
    (workerpoolShards o) (allowThreadLocking o) (ballast o) (handler o).
Definition set_socketFastOpen v (o : options) : options :=
  mkOptions (host o) (port o) (socketReusePort o) v
    (socketFastOpenQueueLen o) (socketDeferAccept o) (loops o)
    (workerpoolShards o) (allowThreadLocking o) (ballast o) (handler o).
Definition set_socketFastOpenQueueLen v (o : options) : options :=
  mkOptions (host o) (port o) (socketReusePort o) (socketFastOpen o)
    v (socketDeferAccept o) (loops o)
    (workerpoolShards o) (allowThreadLocking o) (ballast o) (handler o).
Definition set_socketDeferAccept v (o : options) : options :=
  mkOptions (host o) (port o) (socketReusePort o) (socketFastOpen o)
    (socketFastOpenQueueLen o) v (loops o)
    (workerpoolShards o) (allowThreadLocking o) (ballast o) (handler o).
Definition set_loops v (o : options) : options :=
  mkOptions (host o) (port o) (socketReusePort o) (socketFastOpen o)
    (socketFastOpenQueueLen o) (socketDeferAccept o) v
    (workerpoolShards o) (allowThreadLocking o) (ballast o) (handler o).
Definition set_workerpoolShards v (o : options) : options :=
  mkOptions (host o) (port o) (socketReusePort o) (socketFastOpen o)
    (socketFastOpenQueueLen o) (socketDeferAccept o) (loops o)
    v (allowThreadLocking o) (ballast o) (handler o).
Definition set_allowThreadLocking v (o : options) : options :=
  mkOptions (host o) (port o) (socketReusePort o) (socketFastOpen o)
    (socketFastOpenQueueLen o) (socketDeferAccept o) (loops o)
    (workerpoolShards o) v (ballast o) (handler o).
Definition set_ballast v (o : options) : options :=
  mkOptions (host o) (port o) (socketReusePort o) (socketFastOpen o)
    (socketFastOpenQueueLen o) (socketDeferAccept o) (loops o)
    (workerpoolShards o) (allowThreadLocking o) v (handler o).
Definition set_handler v (o : options) : options :=
  mkOptions (host o) (port o) (socketReusePort o) (socketFastOpen o)
    (socketFastOpenQueueLen o) (socketDeferAccept o) (loops o)
    (workerpoolShards o) (allowThreadLocking o) (ballast o) v.

(** [type Option func(option *options) error]: the record after the call and
    the error returned ([None] is the nil error). *)
Definition Option : Type := options -> options * option error.

(** Modelled from the spec: the declaration of [tcpserver.ListenConfig], a
    struct of the engine, is not part of the source; the listen-time socket
    flags are reuse-port, fast-open with its queue length, and defer-accept. *)
Record ListenConfig : Type := mkListenConfig {
  SocketReusePort : bool;
  SocketFastOpen : bool;
  SocketFastOpenQueueLen : Z;
  SocketDeferAccept : bool
}.

(** [new(tcpserver.ListenConfig)]: the zero value. *)
Definition new_ListenConfig : ListenConfig :=
  mkListenConfig false false 0 false.

(** ** Options that need nothing outside the package *)

Definition WithPort (port : Z) : Option :=
  fun options =>
    if port <? 0 then (options, Some (Errorf "port cannot be less than zero"))
    else (set_port (Some port) options, None).

Definition WithSocketReusePort (enable : bool) : Option :=
  fun options => (set_socketReusePort (Some enable) options, None).

Definition WithSocketFastOpen (enable : bool) : Option :=
  fun options => (set_socketFastOpen (Some enable) options, None).

Definition WithSocketFastOpenQueueLen (len : Z) : Option :=
  fun options =>
    if len <? 0
    then (options, Some (Errorf "queue length cannot be less than zero"))
    else (set_socketFastOpenQueueLen (Some len) options, None).

Definition WithSocketDeferAccept (enable : bool) : Option :=
  fun options => (set_socketDeferAccept (Some enable) options, None).

Definition WithLoops (loops : Z) : Option :=
  fun options => (set_loops (Some loops) options, None).

Definition WithWorkerpoolShards (shards : Z) : Option :=
  fun options => (set_workerpoolShards (Some shards) options, None).

Definition WithAllowThreadLocking (enable : bool) : Option :=
  fun options => (set_allowThreadLocking (Some enable) options, None).

Definition WithBallast (sizeInMiB : Z) : Option :=
  fun options =>
    if sizeInMiB <=? 0
    then (options,
          Some (Errorf "ballast cannot be less than or equal to zero"))
    else (set_ballast (Some sizeInMiB) options, None).

(** [f] may be the nil function: the field is then nil again. *)
Definition WithRequestHandler (f : option RequestHandlerFunc) : Option :=
  fun options => (set_handler f options, None).

(** ** Calls that leave the package, and the trace they leave *)

Inductive event : Type :=
| EApply (i : nat)                          (* opts[i](&opt) *)
| EResolveTCPAddr (address : string)        (* net.ResolveTCPAddr("tcp", address) *)
| ENewServer (address : string)             (* tcpserver.NewServer(address) *)
| ESetLoops (n : Z)
| ESetWorkerpoolShards (n : Z)
| ESetAllowThreadLocking (b : bool)
| ESetBallast (n : Z)
| ESetRequestHandler (f : RequestHandlerFunc)
| ESetListenConfig (cfg : ListenConfig).

(** What a Go function returning [(T, error)] returns. *)
Inductive result (A : Type) : Type :=
| Ok (a : A)
| Err (e : error).
Arguments Ok {A} a.
Arguments Err {A} e.

(** A computation: the calls it made, and its result.  A failure ends the
    computation: what follows is not run and leaves no event. *)
Definition M (A : Type) : Type := list event * result A.

Definition ret {A} (a : A) : M A := ([], Ok a).
Definition fail {A} (e : error) : M A := ([], Err e).
Definition emit (ev : event) : M unit := ([ev], Ok tt).
Definition bind {A B} (m : M A) (k : A -> M B) : M B :=
  match m with
  | (tr, Err e) => (tr, Err e)
  | (tr, Ok a) => let (tr', r) := k a in (tr ++ tr', r)
  end.

Notation "'let*' x ':=' m 'in' k" := (bind m (fun x => k))
  (at level 10, x name, m at level 100, k at level 200).
Notation "m ';;;' k" := (bind m (fun _ => k))
  (at level 100, k at level 200, right associativity).

Definition trace {A} (m : M A) : list event := fst m.
Definition outcome {A} (m : M A) : result A := snd m.

(** A call whose only result is an [error]. *)
Definition call (ev : event) (r : option error) : M unit :=
  emit ev ;;;
  match r with
  | Some e => fail e
  | None => ret tt
  end.

(** [if p != nil { f(v) }], where [v] is the value [p] points to. *)
Definition when_set {A} (p : option A) (f : A -> M unit) : M unit :=
  match p with
  | Some v => f v
  | None => ret tt
  end.

(** The loop [for _, option := range opts] of [New]; [i] is the index of the
    head of [opts] in the argument list. *)
Fixpoint apply_options (i : nat) (opts : list Option) (opt : options)
  : M options :=
  match opts with
  | [] => ret opt
  | option :: rest =>
      emit (EApply i) ;;;
      let (opt', err) := option opt in
      match err with
      | Some e => fail e
      | None => apply_options (S i) rest opt'
      end
  end.

(** [type Server struct { *tcpserver.Server }]: the engine is known to the
    package by the address it was created for; its tuning is in the trace. *)
Record tcpserver_Server : Type := mkEngine { listenAddr : string }.
Record Server : Type := mkServer { srv : tcpserver_Server }.

(** [fmt.Sprintf("%s:%d", h, port)], given the text of [h]. *)
Definition Sprintf_s_d (h : string) (port : Z) : string :=
  (h ++ ":" ++ NilEmpty.string_of_int (Z.to_int port))%string.

Section Package.

(** The [net] package and the engine constructor, as the package sees
    them. *)
Variable ParseIP : string -> option IP.            (* net.ParseIP *)
Variable IP_String : IP -> string.                 (* net.IP.String *)
Variable ResolveTCPAddr : string -> option error.  (* error of net.ResolveTCPAddr("tcp", _) *)
Variable NewServer : string -> option error.       (* error of tcpserver.NewServer *)

(** [func (ip *IP) UnmarshalText(text []byte) error]: the slice behind
    [ip] after the call, and the error. *)
Definition UnmarshalText (ip : IP) (text : string) : IP * option error :=
  if String.eqb text "" then ([], None)
  else match ParseIP text with
       | None => (ip, Some (ParseError "IP address" text))
       | Some x => (x, None)
       end.

(** [func init()]: the value behind [default_host], or [None] for the
    panic. *)
Definition init : option IP :=
  let (ip, err) := UnmarshalText [] "127.0.0.1" in
  match err with
  | Some _ => None
  | None => Some ip
  end.

(** The package variable [default_host] once [init] has run. *)
Variable default_host : IP.

Definition WithHost (host : string) : Option :=
  fun options =>
    if String.eqb host "" || String.eqb host "localhost"
    then (set_host (Some default_host) options, None)
    else
      let (ip, err) := UnmarshalText [] host in
      match err with
      | Some e => (options, Some e)
      | None => (set_host (Some ip) options, None)
      end.

(** Lines 69-78 of [New]: the listen configuration. *)
Definition listen_config (opt : options) : ListenConfig :=
  let cfg := new_ListenConfig in
  let cfg :=
    match socketReusePort opt with
    | Some b => mkListenConfig b (SocketFastOpen cfg)
                  (SocketFastOpenQueueLen cfg) (SocketDeferAccept cfg)
    | None => cfg
    end in
  let cfg :=
    match socketFastOpen opt with
    | Some b => mkListenConfig (SocketReusePort cfg) b
                  (SocketFastOpenQueueLen cfg) (SocketDeferAccept cfg)
    | None => cfg
    end in
  match socketFastOpenQueueLen opt with
  | Some n => mkListenConfig (SocketReusePort cfg) (SocketFastOpen cfg)
                n (SocketDeferAccept cfg)
  | None => cfg
  end.

(** The address [New] computes from the record. *)
Definition address_of (opt : options) : string :=
  let host := match host opt with Some h => h | None => default_host end in
  let port := match port opt with Some p => p | None => 0 end in
  Sprintf_s_d (IP_String host) port.

(** Lines 59-101 of [New]: from the built record to the server.  A setter
    of the engine leaves its event when it is called; what the engine does
    inside a setter, which may not return, is outside the package. *)
Definition construct (opt : options) : M Server :=
  let address := address_of opt in
  call (EResolveTCPAddr address)
       (option_map (Wrapf "validate tcp server address")
                   (ResolveTCPAddr address)) ;;;
  call (ENewServer address)
       (option_map (Wrapf "creates a new server instance")
                   (NewServer address)) ;;;
  let srv := mkEngine address in
  let cfg := listen_config opt in
  when_set (loops opt) (fun n => emit (ESetLoops n)) ;;;
  when_set (workerpoolShards opt)
           (fun n => emit (ESetWorkerpoolShards n)) ;;;
  when_set (allowThreadLocking opt)
           (fun b => emit (ESetAllowThreadLocking b)) ;;;
  when_set (ballast opt) (fun n => emit (ESetBallast n)) ;;;
  when_set (handler opt) (fun f => emit (ESetRequestHandler f)) ;;;
  emit (ESetListenConfig cfg) ;;;
  ret (mkServer srv).

Definition New (opts : list Option) : M Server :=
  let* opt := apply_options 0 opts zero_options in
  construct opt.

End Package.

(** ** The exported constructors, as data

    Outside the package an [Option] can only be obtained from one of the
    eleven [With...] constructors ([options] is not exported).  A [setting]
    is such a call; [to_Option] gives the function it returns. *)

Inductive setting : Type :=
| CallWithHost (host : string)
| CallWithPort (port : Z)
| CallWithSocketReusePort (enable : bool)
| CallWithSocketFastOpen (enable : bool)
| CallWithSocketFastOpenQueueLen (len : Z)
| CallWithSocketDeferAccept (enable : bool)
| CallWithLoops (loops : Z)
| CallWithWorkerpoolShards (shards : Z)
| CallWithAllowThreadLocking (enable : bool)
| CallWithBallast (sizeInMiB : Z)
| CallWithRequestHandler (f : option RequestHandlerFunc).

(** The fields of [options], and what a field can hold. *)
Inductive field : Type :=
| Fhost | Fport | FsocketReusePort | FsocketFastOpen
| FsocketFastOpenQueueLen | FsocketDeferAccept | Floops
| FworkerpoolShards | FallowThreadLocking | Fballast | Fhandler.

Inductive value : Type :=
| VIP (p : option IP)
| VInt (p : option Z)
| VBool (p : option bool)
| VFunc (f : option RequestHandlerFunc).

Definition get (f : field) (o : options) : value :=
  match f with
  | Fhost => VIP (host o)
  | Fport => VInt (port o)
  | FsocketReusePort => VBool (socketReusePort o)
  | FsocketFastOpen => VBool (socketFastOpen o)
  | FsocketFastOpenQueueLen => VInt (socketFastOpenQueueLen o)
  | FsocketDeferAccept => VBool (socketDeferAccept o)
  | Floops => VInt (loops o)
  | FworkerpoolShards => VInt (workerpoolShards o)
  | FallowThreadLocking => VBool (allowThreadLocking o)
  | Fballast => VInt (ballast o)
  | Fhandler => VFunc (handler o)
  end.

(** A field is set when it is not nil. *)
Definition is_set (v : value) : bool :=
  match v with
  | VIP (Some _) | VInt (Some _) | VBool (Some _) | VFunc (Some _) => true
  | _ => false
  end.

Definition field_eqb (f g : field) : bool :=
  match f, g with
  | Fhost, Fhost | Fport, Fport | FsocketReusePort, FsocketReusePort
  | FsocketFastOpen, FsocketFastOpen
  | FsocketFastOpenQueueLen, FsocketFastOpenQueueLen
  | FsocketDeferAccept, FsocketDeferAccept | Floops, Floops
  | FworkerpoolShards, FworkerpoolShards
  | FallowThreadLocking, FallowThreadLocking | Fballast, Fballast
  | Fhandler, Fhandler => true
  | _, _ => false
  end.

(** The field a constructor's function assigns. *)
Definition target (c : setting) : field :=
  match c with
  | CallWithHost _ => Fhost
  | CallWithPort _ => Fport
  | CallWithSocketReusePort _ => FsocketReusePort
  | CallWithSocketFastOpen _ => FsocketFastOpen
  | CallWithSocketFastOpenQueueLen _ => FsocketFastOpenQueueLen
  | CallWithSocketDeferAccept _ => FsocketDeferAccept
  | CallWithLoops _ => Floops
  | CallWithWorkerpoolShards _ => FworkerpoolShards
  | CallWithAllowThreadLocking _ => FallowThreadLocking
  | CallWithBallast _ => Fballast
  | CallWithRequestHandler _ => Fhandler
  end.

Definition to_Option (ParseIP : string -> option IP) (default_host : IP)
  (c : setting) : Option :=
  match c with
  | CallWithHost h => WithHost ParseIP default_host h
  | CallWithPort p => WithPort p
  | CallWithSocketReusePort b => WithSocketReusePort b
  | CallWithSocketFastOpen b => WithSocketFastOpen b
  | CallWithSocketFastOpenQueueLen n => WithSocketFastOpenQueueLen n
  | CallWithSocketDeferAccept b => WithSocketDeferAccept b
  | CallWithLoops n => WithLoops n
  | CallWithWorkerpoolShards n => WithWorkerpoolShards n
  | CallWithAllowThreadLocking b => WithAllowThreadLocking b
  | CallWithBallast n => WithBallast n
  | CallWithRequestHandler f => WithRequestHandler f
  end.

(** ** The tuning knobs of the engine *)

Inductive knob : Type :=
| KLoops | KWorkerpoolShards | KAllowThreadLocking | KBallast
| KRequestHandler.

Definition knob_field (k : knob) : field :=
  match k with
  | KLoops => Floops
  | KWorkerpoolShards => FworkerpoolShards
  | KAllowThreadLocking => FallowThreadLocking
  | KBallast => Fballast
  | KRequestHandler => Fhandler
  end.

(** Is the event a call of the setter of [k]? *)
Definition is_setter (k : knob) (ev : event) : bool :=
  match k, ev with
  | KLoops, ESetLoops _
  | KWorkerpoolShards, ESetWorkerpoolShards _
  | KAllowThreadLocking, ESetAllowThreadLocking _
  | KBallast, ESetBallast _
  | KRequestHandler, ESetRequestHandler _ => true
  | _, _ => false
  end.

(** The calls of the setter of [k] in a trace. *)
Definition setter_calls (k : knob) (tr : list event) : list event :=
  filter (is_setter k) tr.

(** The setter call that carries the value of the field of [k]. *)
Definition knob_call (k : knob) (o : options) : option event :=
  match k with
  | KLoops => option_map ESetLoops (loops o)
  | KWorkerpoolShards => option_map ESetWorkerpoolShards (workerpoolShards o)
  | KAllowThreadLocking =>
      option_map ESetAllowThreadLocking (allowThreadLocking o)
  | KBallast => option_map ESetBallast (ballast o)
  | KRequestHandler => option_map ESetRequestHandler (handler o)
  end.

(** The events a set field of a knob stands for: one call of its setter. *)
Definition knob_calls (k : knob) (o : options) : list event :=
  match knob_call k o with
  | Some ev => [ev]
  | None => []
  end.

(** The setter calls for a record, knob after knob in the order of [New]. *)
Definition tuning (o : options) : list event :=
  flat_map (fun k => knob_calls k o)
    [KLoops; KWorkerpoolShards; KAllowThreadLocking; KBallast;
     KRequestHandler].

Definition is_EApply (ev : event) : bool :=
  match ev with
  | EApply _ => true
  | _ => false
  end.

Definition is_ENewServer (ev : event) : bool :=
  match ev with
  | ENewServer _ => true
  | _ => false
  end.

(** ** An instance of the [net] package for dotted-quad addresses

    Enough of [net] to run the package on IPv4 literals: a text is an IP
    when it is four decimal fields between 0 and 255 without leading zeros,
    and an address when it is such an IP, a colon and a port up to 65535.
    IPv6 literals and host names lie outside this instance. *)
Module Net4.

Fixpoint split (sep : ascii) (s : string) : list string :=
  match s with
  | EmptyString => [EmptyString]
  | String c s' =>
      if Ascii.eqb c sep then EmptyString :: split sep s'
      else match split sep s' with
           | [] => [String c EmptyString]
           | w :: ws => String c w :: ws
           end
  end.

Definition digit (c : ascii) : option N :=
  let n := N_of_ascii c in
  if (48 <=? n)%N && (n <=? 57)%N then Some (n - 48)%N else None.

Fixpoint decimal_from (acc : N) (s : string) : option N :=
  match s with
  | EmptyString => Some acc
  | String c s' =>
      match digit c with
      | Some d => decimal_from (10 * acc + d)%N s'
      | None => None
      end
  end.

Definition decimal (s : string) : option N :=
  match s with
  | EmptyString => None
  | String "0" (String _ _) => None
  | _ => decimal_from 0%N s
  end.

Definition octet (s : string) : option byte :=
  match decimal s with
  | Some n => Byte.of_N n
  | None => None
  end.

Definition v4InV6Prefix : list byte :=
  [x00; x00; x00; x00; x00; x00; x00; x00; x00; x00; xff; xff].

Definition ParseIP (s : string) : option IP :=
  match map octet (split "." s) with
  | [Some a; Some b; Some c; Some d] => Some (v4InV6Prefix ++ [a; b; c; d])
  | _ => None
  end.

Definition To4 (ip : IP) : option (byte * byte * byte * byte) :=
  match ip with
  | [a; b; c; d] => Some (a, b, c, d)
  | [x00; x00; x00; x00; x00; x00; x00; x00; x00; x00; xff; xff;
     a; b; c; d] => Some (a, b, c, d)
  | _ => None
  end.

Definition utoa (n : N) : string := NilEmpty.string_of_uint (N.to_uint n).

Definition IP_String (ip : IP) : string :=
  match ip, To4 ip with
  | [], _ => "<nil>"
  | _, Some (a, b, c, d) =>
      (utoa (Byte.to_N a) ++ "." ++ utoa (Byte.to_N b) ++ "."
       ++ utoa (Byte.to_N c) ++ "." ++ utoa (Byte.to_N d))%string
  | _, None => "?"
  end.

Definition ResolveTCPAddr (address : string) : option error :=
  match split ":" address with
  | [h; p] =>
      match ParseIP h, decimal p with
      | Some _, Some n =>
          if (n <=? 65535)%N then None
          else Some (ForeignError "invalid port")
      | None, _ => Some (ForeignError "no such host")
      | _, None => Some (ForeignError "unknown port")
      end
  | _ => Some (ForeignError "missing port in address")
  end.

(** The engine constructor resolves the address again. *)
Definition NewServer (address : string) : option error :=
  option_map (Wrapf "error resolving address") (ResolveTCPAddr address).

Definition loopback : IP := v4InV6Prefix ++ [x7f; x00; x00; x01].

Definition WithHost := WithHost ParseIP loopback.
Definition New := New IP_String ResolveTCPAddr NewServer loopback.
Definition to_Option := to_Option ParseIP loopback.

End Net4.

(** ** Waiting for a stop signal

    [AwaitStopSignal] talks to the process: it registers a channel with
    [signal.Notify], receives from it and calls [Shutdown] on the engine.
    It is an interaction tree over these three calls; [handle] gives them
    their meaning on a [process]. *)
Module Stop.
Import ITree.ITree ITree.Events.State.
Import ITreeNotations.
Local Open Scope itree_scope.

(** [syscall.Signal] is an integer; the numbers are those of the [syscall]
    package. *)
Definition Signal : Type := Z.
Definition SIGHUP : Signal := 1.
Definition SIGINT : Signal := 2.
Definition SIGQUIT : Signal := 3.
Definition SIGABRT : Signal := 6.
Definition SIGTERM : Signal := 15.
(** [os.Interrupt] *)
Definition Interrupt : Signal := SIGINT.

Variant stopE : Type -> Type :=
| Notify (sigs : list Signal) : stopE unit         (* signal.Notify(c, sigs...) *)
| Receive : stopE Signal                           (* <-c *)
| Shutdown (timeout : Duration) : stopE (option error).  (* s.Shutdown(timeout) *)

Definition AwaitStopSignal (stopTimeout : Duration)
  : itree stopE (Signal * option error) :=
  ITree.trigger
    (Notify [Interrupt; SIGINT; SIGTERM; SIGHUP; SIGQUIT; SIGABRT]) ;;
  sig <- ITree.trigger Receive ;;
  err <- ITree.trigger (Shutdown stopTimeout) ;;
  Ret (sig, err).

(** A call of [AwaitStopSignal] as the process sees it. *)
Inductive stop_call : Type :=
| CNotify (sigs : list Signal)
| CReceive (sig : Signal)
| CShutdown (timeout : Duration).

(** The process around the call: the signals the system will deliver, in
    order; the registration made by [signal.Notify], if any; the calls made
    so far, oldest first; and the error the engine answers to a [Shutdown]
    with a given timeout. *)
Record process : Type := mkProcess {
  pending : list Signal;
  notified : option (list Signal);
  calls : list stop_call;
  shutdown_error : Duration -> option error
}.

(** [signal.Notify] relays the listed signals to the channel, and every
    signal when none is listed. *)
Definition relays (n : option (list Signal)) (s : Signal) : bool :=
  match n with
  | None => false
  | Some [] => true
  | Some sigs => existsb (Z.eqb s) sigs
  end.

(** The channel has room for one signal and is empty when [AwaitStopSignal]
    receives from it: the receive yields the first relayed signal. *)
Fixpoint first_relayed (n : option (list Signal)) (l : list Signal)
  : option (Signal * list Signal) :=
  match l with
  | [] => None
  | s :: rest => if relays n s then Some (s, rest) else first_relayed n rest
  end.

(** A receive on a channel that is never written parks the goroutine for
    good; the event shows the process as it is then. *)
Variant parkE : Type -> Type :=
| Park (p : process) : parkE void.

Definition parked {R} (p : process) : itree parkE R :=
  v <- ITree.trigger (Park p) ;; match v : void with end.

Definition handle : stopE ~> Monads.stateT process (itree parkE) :=
  fun _ e p =>
    match e with
    | Notify sigs =>
        Ret (mkProcess (pending p) (Some sigs) (calls p ++ [CNotify sigs])
               (shutdown_error p), tt)
    | Receive =>
        match first_relayed (notified p) (pending p) with
        | Some (s, rest) =>
            Ret (mkProcess rest (notified p) (calls p ++ [CReceive s])
                   (shutdown_error p), s)
        | None => parked p
        end
    | Shutdown d =>
        Ret (mkProcess (pending p) (notified p) (calls p ++ [CShutdown d])
               (shutdown_error p),
             shutdown_error p d)
    end.

(** Interrupt, terminate, hangup, quit and abort. *)
Definition stop_signal (s : Signal) : Prop :=
  s = SIGINT \/ s = SIGTERM \/ s = SIGHUP \/ s = SIGQUIT \/ s = SIGABRT.

End Stop.

(** ** The guards of the constructors

    [valid] collects the guards the functions of the constructors evaluate:
    [WithPort] and [WithSocketFastOpenQueueLen] reject negative numbers,
    [WithBallast] rejects numbers that are not positive, [WithHost] rejects
    a text that is neither empty nor "localhost" nor an IP literal; the
    other constructors have no guard. *)
Definition valid (ParseIP : string -> option IP) (s : setting) : bool :=
  match s with
  | CallWithHost h =>
      String.eqb h "" || String.eqb h "localhost"
      || match ParseIP h with Some _ => true | None => false end
  | CallWithPort p => 0 <=? p
  | CallWithSocketFastOpenQueueLen n => 0 <=? n
  | CallWithBallast n => 0 <? n
  | _ => true
  end.

(** The last call of a sequence that targets a field, if there is one. *)
Definition last_writer (f : field) (cs : list setting) : option setting :=
  find (fun s => field_eqb (target s) f) (rev cs).

(** Does a text contain a colon? *)
Fixpoint has_colon (s : string) : bool :=
  match s with
  | EmptyString => false
  | String c s' => Ascii.eqb c ":" || has_colon s'
  end.

(** ** Starting the server

    [Start] calls [Listen] on the engine and, when that succeeds, launches
    [Serve] in a goroutine of its own and returns at once. *)
Module Lifecycle.
Import ITree.ITree ITree.Events.State.
Import ITreeNotations.
Local Open Scope itree_scope.

Variant startE : Type -> Type :=
| Listen : startE (option error)     (* s.Listen() *)
| GoServe : startE unit.             (* go func() { s.Serve() }() *)

Definition Start : itree startE (option error) :=
  err <- ITree.trigger Listen ;;
  match err with
  | Some e => Ret (Some (Wrapf "error listening on interface" e))
  | None => ITree.trigger GoServe ;; Ret None
  end.

(** The engine as [Start] sees it: the error its [Listen] answers, how often
    [Listen] was called and how many [Serve] goroutines were launched. *)
Record engine : Type := mkEngineState {
  listen_error : option error;
  listen_calls : nat;
  serve_goroutines : nat
}.

Definition handle : startE ~> Monads.stateT engine (itree void1) :=
  fun _ e st =>
    match e with
    | Listen =>
        Ret (mkEngineState (listen_error st) (S (listen_calls st))
               (serve_goroutines st),
             listen_error st)
    | GoServe =>
        Ret (mkEngineState (listen_error st) (listen_calls st)
               (S (serve_goroutines st)),
             tt)
    end.

End Lifecycle.

(** * Properties *)

(** ** The trace monad *)

Lemma bind_Ok {A B} (m : M A) (k : A -> M B) tr a :
  m = (tr, Ok a) -> bind m k = (tr ++ trace (k a), outcome (k a)).
Proof. intros ->. unfold bind, trace, outcome. now destruct (k a). Qed.

Lemma bind_Err {A B} (m : M A) (k : A -> M B) tr e :
  m = (tr, Err e) -> bind m k = (tr, Err e).
Proof. now intros ->. Qed.

Lemma bind_Ok_inv {A B} (m : M A) (k : A -> M B) tr b :
  bind m k = (tr, Ok b) ->
  exists tr1 a tr2, m = (tr1, Ok a) /\ k a = (tr2, Ok b) /\ tr = tr1 ++ tr2.
Proof.
  destruct m as [tr1 [a|e]]; cbn; [|discriminate].
  destruct (k a) as [tr2 r] eqn:E. intros [= <- ->].
  now exists tr1, a, tr2.
Qed.

(** ** The option loop *)

Lemma apply_options_app pre post i c :
  apply_options i (pre ++ post) c =
  bind (apply_options i pre c)
       (fun c' => apply_options (i + List.length pre)%nat post c').
Proof.
  revert i c. induction pre as [|o pre IH]; intros i c; cbn.
  - rewrite Nat.add_0_r. now destruct (apply_options i post c).
  - destruct (o c) as [c' [e|]]; cbn; [reflexivity|].
    rewrite IH, <- plus_n_Sm. cbn.
    destruct (apply_options (S i) pre c') as [tr [a|e]]; cbn; [|reflexivity].
    now destruct (apply_options _ post a).
Qed.

(** A loop that ends well has called every option, in order, and nothing
    else. *)
Lemma apply_options_Ok_trace opts i c tr cfg :
  apply_options i opts c = (tr, Ok cfg) ->
  tr = map EApply (seq i (List.length opts)).
Proof.
  revert i c tr. induction opts as [|o opts IH]; intros i c tr; cbn.
  - now intros [= <- _].
  - destruct (o c) as [c' [e|]]; cbn; [discriminate|].
    destruct (apply_options (S i) opts c') as [tr' r] eqn:E.
    intros [= <- ->]. f_equal. now apply IH with c'.
Qed.

(** The loop only ever leaves [EApply] events. *)
Lemma apply_options_only_EApply opts i c :
  forallb is_EApply (trace (apply_options i opts c)) = true.
Proof.
  revert i c. induction opts as [|o opts IH]; intros i c; cbn; [reflexivity|].
  destruct (o c) as [c' [e|]]; cbn; [reflexivity|].
  specialize (IH (S i) c').
  now destruct (apply_options (S i) opts c').
Qed.

(** The loop stops at the first option that returns an error. *)
Lemma apply_options_first_error pre o post i c tr c1 e :
  apply_options i pre c = (tr, Ok c1) ->
  snd (o c1) = Some e ->
  apply_options i (pre ++ o :: post) c =
  (tr ++ [EApply (i + List.length pre)%nat], Err e).
Proof.
  intros Hpre Ho. rewrite apply_options_app, (bind_Ok _ _ _ _ Hpre). cbn.
  destruct (o c1) as [c2 r]. cbn in Ho. now subst r.
Qed.

(** Conversely, a loop that fails has a first option that returned an
    error, after options that all returned nil. *)
Lemma apply_options_Err_inv opts i c tr e :
  apply_options i opts c = (tr, Err e) ->
  exists pre o post tr1 c1,
    opts = pre ++ o :: post /\
    apply_options i pre c = (tr1, Ok c1) /\
    snd (o c1) = Some e.
Proof.
  revert i c tr. induction opts as [|o opts IH]; intros i c tr; cbn;
    [discriminate|].
  destruct (o c) as [c' [e'|]] eqn:Eo; cbn.
  - intros [= _ ->]. exists [], o, opts, [], c. cbn. now rewrite Eo.
  - destruct (apply_options (S i) opts c') as [tr' r] eqn:E.
    intros [= _ ->].
    destruct (IH _ _ _ E) as (pre & o1 & post & tr1 & c1 & -> & Hpre & Ho1).
    exists (o :: pre), o1, post, (EApply i :: tr1), c1.
    cbn. now rewrite Eo, Hpre.
Qed.

(** An invariant of the record that every option keeps when it returns nil
    holds of the built record. *)
Lemma apply_options_invariant (P : options -> Prop) opts :
  (forall o c c', In o opts -> o c = (c', None) -> P c -> P c') ->
  forall i c tr cfg,
    apply_options i opts c = (tr, Ok cfg) -> P c -> P cfg.
Proof.
  induction opts as [|o opts IH]; intros Hstep i c tr cfg; cbn.
  - now intros [= _ <-].
  - destruct (o c) as [c' [e|]] eqn:Eo; cbn; [discriminate|].
    destruct (apply_options (S i) opts c') as [tr' r] eqn:E.
    intros [= _ ->] Hc.
    apply (IH (fun o0 c0 c0' H => Hstep o0 c0 c0' (or_intror H)) _ _ _ _ E).
    apply (Hstep o c c'); auto. now left.
Qed.

(** Splitting a successful loop at one of its options. *)
Lemma apply_options_split pre o post i c tr cfg :
  apply_options i (pre ++ o :: post) c = (tr, Ok cfg) ->
  exists tr1 c1 c2 tr2,
    apply_options i pre c = (tr1, Ok c1) /\
    o c1 = (c2, None) /\
    apply_options (S (i + List.length pre)) post c2 = (tr2, Ok cfg).
Proof.
  rewrite apply_options_app. intros H.
  apply bind_Ok_inv in H as (tr1 & c1 & tr2 & Hpre & Hrest & _).
  cbn in Hrest. destruct (o c1) as [c2 [e|]] eqn:Eo; cbn in Hrest;
    [discriminate|].
  destruct (apply_options _ post c2) as [tr3 r] eqn:E.
  injection Hrest as _ ->.
  now exists tr1, c1, c2, tr3.
Qed.

(** ** What the constructors' functions do to the record *)

Ltac unfold_options :=
  unfold to_Option, WithHost, UnmarshalText, WithPort, WithSocketReusePort,
    WithSocketFastOpen, WithSocketFastOpenQueueLen, WithSocketDeferAccept,
    WithLoops, WithWorkerpoolShards, WithAllowThreadLocking, WithBallast,
    WithRequestHandler in *.

Ltac split_conditions :=
  repeat match goal with
         | H : context [if ?b then _ else _] |- _ => destruct b eqn:?
         | H : context [match ?x with Some _ => _ | None => _ end] |- _ =>
             destruct x eqn:?
         | |- context [if ?b then _ else _] => destruct b eqn:?
         | |- context [match ?x with Some _ => _ | None => _ end] =>
             destruct x eqn:?
         end.

(** A function that returns nil leaves every field but its target alone. *)
Lemma to_Option_frame ParseIP default_host s f c c' :
  to_Option ParseIP default_host s c = (c', None) ->
  target s <> f ->
  get f c' = get f c.
Proof.
  intros H Hf.
  destruct s; unfold_options; split_conditions;
    try discriminate; injection H as <-;
    destruct f; cbn in *; congruence.
Qed.

(** Whether a function fails, and what it writes, does not depend on the
    record it is applied to. *)
Lemma to_Option_written ParseIP default_host s c c' o :
  to_Option ParseIP default_host s c = (c', None) ->
  to_Option ParseIP default_host s o =
    (fst (to_Option ParseIP default_host s o), None) /\
  get (target s) (fst (to_Option ParseIP default_host s o)) =
    get (target s) c'.
Proof.
  intros H.
  destruct s; unfold_options; split_conditions;
    try discriminate; injection H as <-; cbn; auto.
Qed.

(** Fields no option of the sequence targets keep their value. *)
Lemma apply_settings_frame ParseIP default_host cs f i c tr cfg :
  apply_options i (map (to_Option ParseIP default_host) cs) c = (tr, Ok cfg) ->
  (forall s, In s cs -> target s <> f) ->
  get f cfg = get f c.
Proof.
  intros Hrun Hcs.
  apply (apply_options_invariant (fun x => get f x = get f c)
           (map (to_Option ParseIP default_host) cs)) with i c tr; auto.
  intros o x x' Ho Hx Hinv. apply in_map_iff in Ho as (s & <- & Hs).
  rewrite <- Hinv. eapply to_Option_frame; eauto.
Qed.

(** The field targeted by a setting holds, at the end, what the last setting
    that targets it wrote. *)
Lemma apply_settings_last_write ParseIP default_host pre s post c tr cfg :
  apply_options 0 (map (to_Option ParseIP default_host) (pre ++ s :: post)) c
  = (tr, Ok cfg) ->
  (forall s', In s' post -> target s' <> target s) ->
  exists c1 c2,
    to_Option ParseIP default_host s c1 = (c2, None) /\
    get (target s) cfg = get (target s) c2.
Proof.
  rewrite map_app. cbn. intros Hrun Hpost.
  apply apply_options_split in Hrun as (tr1 & c1 & c2 & tr2 & _ & Hs & Hrest).
  exists c1, c2. split; [exact Hs|].
  eapply apply_settings_frame; eauto.
Qed.

(** ** Claims about the options *)

(** C3. When the options before some option all return nil and that option
    returns an error, [New] returns that error and no server, whatever
    options follow: the options up to the failing one have been called, in
    order, and nothing else has happened. *)
Theorem New_returns_first_error
  IP_String ResolveTCPAddr NewServer default_host
  (pre : list Option) (o : Option) (post : list Option) tr cfg e :
  apply_options 0 pre zero_options = (tr, Ok cfg) ->
  snd (o cfg) = Some e ->
  New IP_String ResolveTCPAddr NewServer default_host (pre ++ o :: post)
  = (map EApply (seq 0 (S (List.length pre))), Err e).
Proof.
  intros Hpre Ho. unfold New.
  rewrite (bind_Err _ _ (tr ++ [EApply (List.length pre)]) e).
  - rewrite (apply_options_Ok_trace _ _ _ _ _ Hpre), seq_S, map_app.
    reflexivity.
  - now apply apply_options_first_error with cfg.
Qed.

Lemma New_returns_first_error_witness :
  apply_options 0 [WithLoops 3; WithSocketReusePort true] zero_options
  = ([EApply 0%nat; EApply 1%nat],
     Ok (set_socketReusePort (Some true) (set_loops (Some 3) zero_options)))
  /\ snd (WithPort (-1)
            (set_socketReusePort (Some true) (set_loops (Some 3) zero_options)))
     = Some (Errorf "port cannot be less than zero")
  /\ Net4.New ([WithLoops 3; WithSocketReusePort true]
               ++ WithPort (-1) :: [WithBallast 0; WithLoops 9])
     = ([EApply 0%nat; EApply 1%nat; EApply 2%nat],
        Err (Errorf "port cannot be less than zero")).
Proof.
  split; [reflexivity|]. split; [reflexivity|].
  exact (New_returns_first_error Net4.IP_String Net4.ResolveTCPAddr
           Net4.NewServer Net4.loopback
           [WithLoops 3; WithSocketReusePort true] (WithPort (-1))
           [WithBallast 0; WithLoops 9] _ _ _ eq_refl eq_refl).
Defined.

(** C5. In the record built from a sequence of constructor calls that all
    succeed, each field holds the value written by the last call of the
    sequence that sets that field: the value that call writes to whatever
    record it is applied to. *)
Theorem last_write_wins ParseIP default_host (cs : list setting) tr cfg :
  apply_options 0 (map (to_Option ParseIP default_host) cs) zero_options
  = (tr, Ok cfg) ->
  forall pre s post,
    cs = pre ++ s :: post ->
    (forall s', In s' post -> target s' <> target s) ->
    forall o,
      get (target s) cfg
      = get (target s) (fst (to_Option ParseIP default_host s o)).
Proof.
  intros Hrun pre s post -> Hpost o.
  destruct (apply_settings_last_write _ _ _ _ _ _ _ _ Hrun Hpost)
    as (c1 & c2 & Hs & ->).
  symmetry. now apply (to_Option_written _ _ _ _ _ o) in Hs.
Qed.

Lemma last_write_wins_witness :
  apply_options 0
    (map Net4.to_Option
       [CallWithPort 80; CallWithHost "10.0.0.7"; CallWithPort 8080;
        CallWithLoops 2; CallWithHost "localhost"])
    zero_options
  = (map EApply (seq 0 5),
     Ok (mkOptions (Some Net4.loopback) (Some 8080) None None None None
           (Some 2) None None None None))
  /\ get Fport
       (mkOptions (Some Net4.loopback) (Some 8080) None None None None
          (Some 2) None None None None)
     = get Fport (fst (Net4.to_Option (CallWithPort 8080) zero_options)).
Proof.
  split; [reflexivity|].
  apply (last_write_wins Net4.ParseIP Net4.loopback
           [CallWithPort 80; CallWithHost "10.0.0.7"; CallWithPort 8080;
            CallWithLoops 2; CallWithHost "localhost"]
           (map EApply (seq 0 5)) _ eq_refl
           [CallWithPort 80; CallWithHost "10.0.0.7"] (CallWithPort 8080)
           [CallWithLoops 2; CallWithHost "localhost"] eq_refl).
  intros s' [<-|[<-|[]]]; discriminate.
Defined.

(** C7. [WithBallast] with a size that is not positive returns an error and
    leaves the record as it was, so a ballast that was unset stays unset;
    with a positive size it returns nil and sets the ballast to that size. *)
Theorem WithBallast_validates (sizeInMiB : Z) (o : options) :
  (sizeInMiB <= 0 ->
   WithBallast sizeInMiB o
   = (o, Some (Errorf "ballast cannot be less than or equal to zero"))
   /\ (ballast o = None -> ballast (fst (WithBallast sizeInMiB o)) = None))
  /\ (0 < sizeInMiB ->
      WithBallast sizeInMiB o = (set_ballast (Some sizeInMiB) o, None)
      /\ ballast (fst (WithBallast sizeInMiB o)) = Some sizeInMiB).
Proof.
  unfold WithBallast. split; intros H.
  - apply Z.leb_le in H. rewrite H. auto.
  - apply Z.leb_gt in H. rewrite H. auto.
Qed.

Lemma WithBallast_validates_witness :
  (-4 <= 0 /\ 0 < 20)
  /\ WithBallast (-4) zero_options
     = (zero_options,
        Some (Errorf "ballast cannot be less than or equal to zero"))
  /\ ballast (fst (WithBallast (-4) zero_options)) = None
  /\ WithBallast 20 zero_options
     = (set_ballast (Some 20) zero_options, None).
Proof.
  assert (Hneg : -4 <= 0) by discriminate.
  assert (Hpos : 0 < 20) by reflexivity.
  split; [exact (conj Hneg Hpos)|].
  destruct (proj1 (WithBallast_validates (-4) zero_options) Hneg) as [E U].
  destruct (proj2 (WithBallast_validates 20 zero_options) Hpos) as [E' _].
  split; [exact E|]. split; [exact (U eq_refl)|exact E'].
Defined.

(** C2, as the code has it: [WithLoops] and [WithWorkerpoolShards] check
    nothing.  For every integer, positive or not, they return nil and store
    that integer, so the stored count is positive exactly when the argument
    is. *)
Theorem WithLoops_WithWorkerpoolShards_store_any (n : Z) (o : options) :
  (WithLoops n o = (set_loops (Some n) o, None)
   /\ loops (fst (WithLoops n o)) = Some n)
  /\ (WithWorkerpoolShards n o = (set_workerpoolShards (Some n) o, None)
      /\ workerpoolShards (fst (WithWorkerpoolShards n o)) = Some n)
  /\ outcome (apply_options 0 [WithLoops n; WithWorkerpoolShards n]
                zero_options)
     = Ok (set_workerpoolShards (Some n) (set_loops (Some n) zero_options)).
Proof. repeat split. Qed.

(** C2 fails for 0 and for negative counts: the options succeed and the
    built record holds a count that is not positive. *)
Lemma WithLoops_nonpositive_counterexample :
  (snd (WithLoops 0 zero_options) = None
   /\ loops (fst (WithLoops 0 zero_options)) = Some 0 /\ 0 <= 0)
  /\ (snd (WithWorkerpoolShards (-3) zero_options) = None
      /\ workerpoolShards (fst (WithWorkerpoolShards (-3) zero_options))
         = Some (-3)
      /\ -3 <= 0)
  /\ exists cfg,
       outcome (apply_options 0 [WithLoops 0; WithWorkerpoolShards (-3)]
                  zero_options) = Ok cfg
       /\ loops cfg = Some 0 /\ workerpoolShards cfg = Some (-3).
Proof.
  repeat split; try discriminate.
  eexists. repeat split.
Qed.

(** C4. For the empty host and for "localhost", [WithHost] returns nil and
    the host is the package default, which [init] parsed from "127.0.0.1";
    for any other text that is not an IP literal, [WithHost] returns the
    parse error and leaves the record as it was. *)
Theorem WithHost_default_or_parse ParseIP default_host
  (h : string) (o : options) :
  init ParseIP = Some default_host ->
  ParseIP "127.0.0.1" = Some default_host
  /\ (h = "" \/ h = "localhost" ->
      WithHost ParseIP default_host h o
      = (set_host (Some default_host) o, None)
      /\ host (fst (WithHost ParseIP default_host h o)) = Some default_host)
  /\ (h <> "" -> h <> "localhost" -> ParseIP h = None ->
      WithHost ParseIP default_host h o
      = (o, Some (ParseError "IP address" h))).
Proof.
  intros Hinit. split; [|split].
  - unfold init, UnmarshalText in Hinit. cbn in Hinit.
    destruct (ParseIP "127.0.0.1"); [|discriminate]. congruence.
  - intros [-> | ->]; now cbn.
  - intros H1 H2 Hparse. unfold WithHost, UnmarshalText.
    apply String.eqb_neq in H1, H2. now rewrite H1, H2, Hparse.
Qed.

Lemma WithHost_default_or_parse_witness :
  init Net4.ParseIP = Some Net4.loopback
  /\ Net4.WithHost "localhost" zero_options
     = (set_host (Some Net4.loopback) zero_options, None)
  /\ Net4.WithHost "" zero_options
     = (set_host (Some Net4.loopback) zero_options, None)
  /\ Net4.ParseIP "not-an-ip" = None
  /\ Net4.WithHost "not-an-ip" zero_options
     = (zero_options, Some (ParseError "IP address" "not-an-ip")).
Proof.
  assert (Hinit : init Net4.ParseIP = Some Net4.loopback) by reflexivity.
  split; [exact Hinit|].
  split.
  { apply (WithHost_default_or_parse Net4.ParseIP Net4.loopback "localhost"
             zero_options Hinit). now right. }
  split.
  { apply (WithHost_default_or_parse Net4.ParseIP Net4.loopback ""
             zero_options Hinit). now left. }
  split; [reflexivity|].
  apply (WithHost_default_or_parse Net4.ParseIP Net4.loopback "not-an-ip"
           zero_options Hinit); [discriminate | discriminate | reflexivity].
Defined.

(** ** From the record to the server *)

Section Construction.

Variable ParseIP : string -> option IP.
Variable IP_String : IP -> string.
Variable ResolveTCPAddr : string -> option error.
Variable NewServer : string -> option error.
Variable default_host : IP.

Local Abbreviation addr := (address_of IP_String default_host).
Local Abbreviation make :=
  (construct IP_String ResolveTCPAddr NewServer default_host).
Local Abbreviation new := (New IP_String ResolveTCPAddr NewServer default_host).
Local Abbreviation opt_of := (to_Option ParseIP default_host).

Lemma construct_unresolved c err :
  ResolveTCPAddr (addr c) = Some err ->
  make c
  = ([EResolveTCPAddr (addr c)],
     Err (Wrapf "validate tcp server address" err)).
Proof. intros H. unfold construct, call. now rewrite H. Qed.

Lemma construct_not_created c err :
  ResolveTCPAddr (addr c) = None ->
  NewServer (addr c) = Some err ->
  make c
  = ([EResolveTCPAddr (addr c); ENewServer (addr c)],
     Err (Wrapf "creates a new server instance" err)).
Proof. intros H1 H2. unfold construct, call. now rewrite H1, H2. Qed.

Lemma construct_Ok c :
  ResolveTCPAddr (addr c) = None ->
  NewServer (addr c) = None ->
  make c
  = (EResolveTCPAddr (addr c) :: ENewServer (addr c)
       :: tuning c ++ [ESetListenConfig (listen_config c)],
     Ok (mkServer (mkEngine (addr c)))).
Proof.
  intros H1 H2. unfold construct, call. rewrite H1, H2.
  generalize (addr c) as a. intros a.
  unfold tuning, knob_calls. cbn [flat_map knob_call].
  destruct (loops c), (workerpoolShards c), (allowThreadLocking c),
    (ballast c), (handler c); reflexivity.
Qed.

(** The three ways [construct] can end. *)
Lemma construct_cases c :
  (exists err,
      ResolveTCPAddr (addr c) = Some err /\
      make c
      = ([EResolveTCPAddr (addr c)],
         Err (Wrapf "validate tcp server address" err)))
  \/ (exists err,
         ResolveTCPAddr (addr c) = None /\
         make c
         = ([EResolveTCPAddr (addr c); ENewServer (addr c)],
            Err (Wrapf "creates a new server instance" err)))
  \/ (ResolveTCPAddr (addr c) = None /\
      make c
      = (EResolveTCPAddr (addr c) :: ENewServer (addr c)
           :: tuning c ++ [ESetListenConfig (listen_config c)],
         Ok (mkServer (mkEngine (addr c))))).
Proof.
  destruct (ResolveTCPAddr (addr c)) as [err|] eqn:H1.
  - left. exists err. split; [reflexivity|]. now apply construct_unresolved.
  - destruct (NewServer (addr c)) as [err|] eqn:H2.
    + right. left. exists err. split; [reflexivity|].
      now apply construct_not_created.
    + right. right. split; [reflexivity|]. now apply construct_Ok.
Qed.

(** A server comes out of [New] only along the full path. *)
Lemma New_Ok_inv opts tr s :
  new opts = (tr, Ok s) ->
  exists tr0 cfg,
    apply_options 0 opts zero_options = (tr0, Ok cfg) /\
    ResolveTCPAddr (addr cfg) = None /\
    NewServer (addr cfg) = None /\
    s = mkServer (mkEngine (addr cfg)) /\
    tr = tr0 ++ EResolveTCPAddr (addr cfg)
            :: ENewServer (addr cfg)
            :: tuning cfg ++ [ESetListenConfig (listen_config cfg)].
Proof.
  unfold New. intros H.
  apply bind_Ok_inv in H as (tr0 & cfg & tr1 & Hrun & Hc & ->).
  exists tr0, cfg. split; [exact Hrun|].
  destruct (construct_cases cfg) as
    [(err & _ & E) | [(err & _ & E) | (H1 & E)]];
    rewrite E in Hc; try discriminate.
  injection Hc as <- <-.
  destruct (NewServer (addr cfg)) as [err|] eqn:H2.
  - rewrite (construct_not_created _ _ H1 H2) in E. discriminate.
  - auto.
Qed.

(** No setter call, and no engine, among the option calls. *)
Lemma EApply_no_setter k tr :
  forallb is_EApply tr = true -> setter_calls k tr = [].
Proof.
  induction tr as [|ev tr IH]; cbn; [reflexivity|].
  intros H. apply andb_true_iff in H as [Hev Htr].
  destruct ev; try discriminate. destruct k; cbn; auto.
Qed.

Lemma EApply_no_ENewServer tr :
  forallb is_EApply tr = true -> existsb is_ENewServer tr = false.
Proof.
  induction tr as [|ev tr IH]; cbn; [reflexivity|].
  intros H. apply andb_true_iff in H as [Hev Htr].
  destruct ev; try discriminate. cbn. auto.
Qed.

Lemma tuning_no_ENewServer c : existsb is_ENewServer (tuning c) = false.
Proof.
  unfold tuning, knob_calls. cbn [flat_map knob_call].
  destruct (loops c), (workerpoolShards c), (allowThreadLocking c),
    (ballast c), (handler c); reflexivity.
Qed.

(** The setter of a knob is called once if its field is set, and not at
    all otherwise. *)
Lemma setter_calls_tuning k c :
  setter_calls k (tuning c) = knob_calls k c.
Proof.
  unfold tuning, knob_calls, setter_calls. cbn [flat_map knob_call].
  destruct k; cbn [knob_call];
    destruct (loops c), (workerpoolShards c), (allowThreadLocking c),
      (ballast c), (handler c); reflexivity.
Qed.

Lemma setter_calls_New opts tr s tr0 cfg k :
  new opts = (tr, Ok s) ->
  apply_options 0 opts zero_options = (tr0, Ok cfg) ->
  setter_calls k tr = knob_calls k cfg.
Proof.
  intros HN Hrun.
  apply New_Ok_inv in HN as (tr0' & cfg' & Hrun' & _ & _ & _ & ->).
  rewrite Hrun in Hrun'. injection Hrun' as <- <-.
  unfold setter_calls.
  change (EResolveTCPAddr (addr cfg) :: ENewServer (addr cfg)
            :: tuning cfg ++ [ESetListenConfig (listen_config cfg)])
    with ([EResolveTCPAddr (addr cfg); ENewServer (addr cfg)]
            ++ tuning cfg ++ [ESetListenConfig (listen_config cfg)]).
  rewrite !filter_app.
  fold (setter_calls k tr0). fold (setter_calls k (tuning cfg)).
  rewrite EApply_no_setter, setter_calls_tuning.
  - destruct k; cbn; now rewrite app_nil_r.
  - pose proof (apply_options_only_EApply opts 0 zero_options) as H.
    now rewrite Hrun in H.
Qed.

End Construction.

(** The position of the engine's creation in a trace that has one. *)
Lemma ENewServer_position l1 a l2 tr1 b tr2 :
  existsb is_ENewServer l1 = false ->
  existsb is_ENewServer l2 = false ->
  l1 ++ ENewServer a :: l2 = tr1 ++ ENewServer b :: tr2 ->
  tr1 = l1 /\ b = a.
Proof.
  intros H1 H2. revert tr1. induction l1 as [|x l1 IH]; intros tr1 E.
  - destruct tr1 as [|ev tr1]; cbn in E.
    + injection E as -> _. auto.
    + injection E as _ ->. rewrite existsb_app in H2. cbn in H2.
      now rewrite orb_true_r in H2.
  - cbn in H1. apply orb_false_iff in H1 as [Hx Hl1].
    destruct tr1 as [|ev tr1]; cbn in E.
    + injection E as -> _. discriminate.
    + injection E as -> E. destruct (IH Hl1 _ E) as [-> ->]. auto.
Qed.

Section NewClaims.

Variable ParseIP : string -> option IP.
Variable IP_String : IP -> string.
Variable ResolveTCPAddr : string -> option error.
Variable NewServer : string -> option error.
Variable default_host : IP.

Local Abbreviation addr := (address_of IP_String default_host).
Local Abbreviation make :=
  (construct IP_String ResolveTCPAddr NewServer default_host).
Local Abbreviation new := (New IP_String ResolveTCPAddr NewServer default_host).
Local Abbreviation opt_of := (to_Option ParseIP default_host).

(** C6. The address is validated before the engine is created.  If the
    options all return nil and the address of the built record does not
    resolve, [New] returns the validation error and no server, and its last
    call is the validation: no engine was created.  And in every run of
    [New], a creation of the engine for an address comes right after the
    validation of that address, which succeeded. *)
Theorem New_validates_address_first (opts : list Option) :
  (forall tr cfg err,
      apply_options 0 opts zero_options = (tr, Ok cfg) ->
      ResolveTCPAddr (addr cfg) = Some err ->
      new opts
      = (tr ++ [EResolveTCPAddr (addr cfg)],
         Err (Wrapf "validate tcp server address" err))
      /\ existsb is_ENewServer (trace (new opts)) = false)
  /\ (forall tr1 a tr2,
         trace (new opts) = tr1 ++ ENewServer a :: tr2 ->
         ResolveTCPAddr a = None
         /\ exists tr0, tr1 = tr0 ++ [EResolveTCPAddr a]).
Proof.
  pose proof (apply_options_only_EApply opts 0 zero_options) as Hloop.
  split.
  - intros tr cfg err Hrun Hres.
    assert (E : new opts
                = (tr ++ [EResolveTCPAddr (addr cfg)],
                   Err (Wrapf "validate tcp server address" err))).
    { unfold New. rewrite (bind_Ok _ _ _ _ Hrun).
      now rewrite (construct_unresolved _ _ _ _ _ _ Hres). }
    split; [exact E|]. rewrite E. cbn [trace fst].
    rewrite Hrun in Hloop. cbn in Hloop.
    rewrite existsb_app, (EApply_no_ENewServer _ Hloop). reflexivity.
  - intros tr1 a tr2. unfold New.
    destruct (apply_options 0 opts zero_options) as [tr0 [cfg|e]] eqn:Hrun;
      cbn in Hloop.
    + rewrite (bind_Ok _ _ _ _ eq_refl).
      apply EApply_no_ENewServer in Hloop.
      destruct (construct_cases IP_String ResolveTCPAddr NewServer
                  default_host cfg)
        as [(err & _ & E) | [(err & H1 & E) | (H1 & E)]];
        rewrite E; cbn [trace fst]; intros Htr.
      * apply (f_equal (existsb is_ENewServer)) in Htr.
        rewrite !existsb_app, Hloop in Htr. cbn in Htr.
        now rewrite orb_true_r in Htr.
      * change (tr0 ++ [EResolveTCPAddr (addr cfg); ENewServer (addr cfg)])
          with (tr0 ++ [EResolveTCPAddr (addr cfg)]
                   ++ ENewServer (addr cfg) :: []) in Htr.
        rewrite app_assoc in Htr.
        apply ENewServer_position in Htr as [-> ->]; eauto.
        now rewrite existsb_app, Hloop.
      * change (tr0 ++ EResolveTCPAddr (addr cfg) :: ENewServer (addr cfg)
                  :: tuning cfg ++ [ESetListenConfig (listen_config cfg)])
          with (tr0 ++ [EResolveTCPAddr (addr cfg)]
                   ++ ENewServer (addr cfg)
                   :: tuning cfg ++ [ESetListenConfig (listen_config cfg)])
          in Htr.
        rewrite app_assoc in Htr.
        apply ENewServer_position in Htr as [-> ->]; eauto.
        -- now rewrite existsb_app, Hloop.
        -- now rewrite existsb_app, tuning_no_ENewServer.
    + cbn [bind trace fst]. intros Htr.
      apply EApply_no_ENewServer in Hloop.
      rewrite Htr, existsb_app in Hloop. cbn in Hloop.
      now rewrite orb_true_r in Hloop.
Qed.

(** C10. With no option at all, the host is the package default and the
    port is 0.  Given that [init] parsed "127.0.0.1" into the default, that
    the default prints as "127.0.0.1" and that the [net] package and the
    engine accept "127.0.0.1:0", [New] validates that address, creates the
    engine for it and returns a server and no error. *)
Theorem New_without_options :
  init ParseIP = Some default_host ->
  IP_String default_host = "127.0.0.1" ->
  ResolveTCPAddr "127.0.0.1:0" = None ->
  NewServer "127.0.0.1:0" = None ->
  ParseIP "127.0.0.1" = Some default_host
  /\ addr zero_options = "127.0.0.1:0"
  /\ new []
     = ([EResolveTCPAddr "127.0.0.1:0"; ENewServer "127.0.0.1:0";
         ESetListenConfig new_ListenConfig],
        Ok (mkServer (mkEngine "127.0.0.1:0"))).
Proof.
  intros Hinit Hstr Hres Hnew.
  assert (Haddr : addr zero_options = "127.0.0.1:0").
  { unfold address_of, Sprintf_s_d. cbn. now rewrite Hstr. }
  split; [|split; [exact Haddr|]].
  - unfold init, UnmarshalText in Hinit. cbn in Hinit.
    destruct (ParseIP "127.0.0.1"); [|discriminate]. congruence.
  - unfold New. cbn [apply_options]. unfold ret.
    rewrite (bind_Ok _ _ [] zero_options eq_refl).
    rewrite construct_Ok; rewrite Haddr; auto.
Qed.

(** C1, as the code has it: the listen configuration [New] hands to the
    engine carries the reuse-port, fast-open and queue-length values of the
    built record (the zero value where a field is unset), but its
    defer-accept flag is false whatever the record says. *)
Theorem New_listen_config_drops_defer_accept (opts : list Option) tr s :
  new opts = (tr, Ok s) ->
  exists tr0 built,
    apply_options 0 opts zero_options = (tr0, Ok built)
    /\ In (ESetListenConfig (listen_config built)) tr
    /\ (forall cfg, In (ESetListenConfig cfg) tr -> cfg = listen_config built)
    /\ SocketReusePort (listen_config built)
       = match socketReusePort built with Some b => b | None => false end
    /\ SocketFastOpen (listen_config built)
       = match socketFastOpen built with Some b => b | None => false end
    /\ SocketFastOpenQueueLen (listen_config built)
       = match socketFastOpenQueueLen built with Some n => n | None => 0 end
    /\ SocketDeferAccept (listen_config built) = false.
Proof.
  intros HN.
  apply New_Ok_inv in HN as (tr0 & built & Hrun & _ & _ & _ & ->).
  exists tr0, built. split; [exact Hrun|].
  pose proof (apply_options_only_EApply opts 0 zero_options) as Hloop.
  rewrite Hrun in Hloop. cbn in Hloop.
  split; [|split].
  - apply in_or_app. right. right. right. apply in_or_app. right. now left.
  - intros cfg Hin. apply in_app_or in Hin as [Hin | Hin].
    + rewrite forallb_forall in Hloop. now apply Hloop in Hin.
    + destruct Hin as [Hin | [Hin | Hin]]; try discriminate.
      apply in_app_or in Hin as [Hin | [Hin | []]].
      * unfold tuning, knob_calls in Hin. cbn [flat_map knob_call] in Hin.
        destruct (loops built), (workerpoolShards built),
          (allowThreadLocking built), (ballast built), (handler built);
          cbn in Hin;
          repeat match goal with
                 | H : _ \/ _ |- _ => destruct H as [H | H]
                 end; try discriminate; contradiction.
      * congruence.
  - unfold listen_config.
    destruct (socketReusePort built), (socketFastOpen built),
      (socketFastOpenQueueLen built); cbn; auto.
Qed.

End NewClaims.

(** ** Set fields and setter calls *)

Lemma field_eqb_eq f g : field_eqb f g = true <-> f = g.
Proof. destruct f, g; cbn; split; intros H; congruence. Qed.

(** Among the settings that target a field there is a last one. *)
Lemma last_targeting (f : field) (cs : list setting) :
  (exists s, In s cs /\ target s = f) ->
  exists pre s post,
    cs = pre ++ s :: post /\ target s = f /\
    forall s', In s' post -> target s' <> f.
Proof.
  induction cs as [|s0 cs IH]; intros (s & Hin & Hs); [destruct Hin|].
  destruct (existsb (fun x => field_eqb (target x) f) cs) eqn:E.
  - apply existsb_exists in E as (x & Hx & Hf). apply field_eqb_eq in Hf.
    destruct IH as (pre & s1 & post & -> & H1 & H2); [now exists x|].
    now exists (s0 :: pre), s1, post.
  - assert (Hnone : forall s', In s' cs -> target s' <> f).
    { intros s' Hs' Hf.
      assert (existsb (fun x => field_eqb (target x) f) cs = true);
        [|congruence].
      apply existsb_exists. exists s'. split; [exact Hs'|].
      now apply field_eqb_eq. }
    destruct Hin as [-> | Hin].
    + now exists [], s, cs.
    + now apply Hnone in Hin.
Qed.

(** Every constructor but [WithRequestHandler] writes a non-nil value. *)
Lemma to_Option_sets ParseIP default_host s c c' :
  to_Option ParseIP default_host s c = (c', None) ->
  target s <> Fhandler ->
  is_set (get (target s) c') = true.
Proof.
  intros H Hf.
  destruct s; unfold_options; split_conditions;
    try discriminate; injection H as <-; cbn in *; congruence.
Qed.

Lemma knob_calls_unset k c :
  is_set (get (knob_field k) c) = false -> knob_calls k c = [].
Proof.
  unfold knob_calls.
  destruct k; cbn;
    [destruct (loops c) | destruct (workerpoolShards c)
     | destruct (allowThreadLocking c) | destruct (ballast c)
     | destruct (handler c)]; cbn; congruence.
Qed.

Lemma knob_calls_set k c :
  is_set (get (knob_field k) c) = true -> exists ev, knob_calls k c = [ev].
Proof.
  unfold knob_calls.
  destruct k; cbn;
    [destruct (loops c) | destruct (workerpoolShards c)
     | destruct (allowThreadLocking c) | destruct (ballast c)
     | destruct (handler c)]; cbn; try discriminate; eauto.
Qed.

(** C9. When [New] returns a server for a sequence of constructor calls,
    the setter of each knob (loops, worker-pool shards, thread locking,
    ballast, request handler) is called once, with the value of the field,
    if the field of the built record is set, and is not called if it is
    unset.  A knob no option of the sequence touches gets no call; a knob
    other than the handler that some option touches gets one; the handler's
    setter is called when the last [WithRequestHandler] passed a non-nil
    function. *)
Theorem New_tunes_exactly_set_knobs
  ParseIP IP_String ResolveTCPAddr NewServer default_host
  (cs : list setting) tr s :
  New IP_String ResolveTCPAddr NewServer default_host
    (map (to_Option ParseIP default_host) cs) = (tr, Ok s) ->
  exists tr0 cfg,
    apply_options 0 (map (to_Option ParseIP default_host) cs) zero_options
    = (tr0, Ok cfg)
    /\ (forall k,
           setter_calls k tr = knob_calls k cfg
           /\ (is_set (get (knob_field k) cfg) = false ->
               setter_calls k tr = [])
           /\ (is_set (get (knob_field k) cfg) = true ->
               exists ev, setter_calls k tr = [ev])
           /\ ((forall c, In c cs -> target c <> knob_field k) ->
               setter_calls k tr = [])
           /\ (k <> KRequestHandler ->
               (exists c, In c cs /\ target c = knob_field k) ->
               exists ev, setter_calls k tr = [ev]))
    /\ (forall pre f post,
           cs = pre ++ CallWithRequestHandler f :: post ->
           (forall c, In c post -> target c <> Fhandler) ->
           setter_calls KRequestHandler tr
           = match f with
             | Some h => [ESetRequestHandler h]
             | None => []
             end).
Proof.
  intros HN.
  destruct (New_Ok_inv _ _ _ _ _ _ _ HN) as (tr0 & cfg & Hrun & _).
  exists tr0, cfg. split; [exact Hrun|].
  assert (Hcalls : forall k, setter_calls k tr = knob_calls k cfg).
  { intros k. eapply setter_calls_New; eauto. }
  split.
  - intros k. rewrite Hcalls. split; [reflexivity|].
    split; [apply knob_calls_unset|]. split; [apply knob_calls_set|]. split.
    + intros Hnone. apply knob_calls_unset.
      rewrite (apply_settings_frame _ _ _ _ _ _ _ _ Hrun Hnone).
      now destruct k.
    + intros Hk Hsome. apply knob_calls_set.
      apply last_targeting in Hsome as (pre & s1 & post & -> & Ht & Hpost).
      rewrite <- Ht in Hpost |- *.
      destruct (apply_settings_last_write _ _ _ _ _ _ _ _ Hrun Hpost)
        as (c1 & c2 & Hs1 & ->).
      apply to_Option_sets in Hs1; [exact Hs1|].
      rewrite Ht. now destruct k.
  - intros pre f post -> Hpost. rewrite Hcalls.
    destruct (apply_settings_last_write _ _ _ (CallWithRequestHandler f)
                _ _ _ _ Hrun Hpost) as (c1 & c2 & Hs1 & Hget).
    cbn in Hs1, Hget. injection Hs1 as <-. cbn in Hget.
    unfold knob_calls. cbn. injection Hget as ->. now destruct f.
Qed.

Lemma New_validates_address_first_witness :
  (apply_options 0 [WithPort 70000] zero_options
   = ([EApply 0%nat], Ok (set_port (Some 70000) zero_options))
   /\ Net4.ResolveTCPAddr "127.0.0.1:70000"
      = Some (ForeignError "invalid port")
   /\ Net4.New [WithPort 70000]
      = ([EApply 0%nat; EResolveTCPAddr "127.0.0.1:70000"],
         Err (Wrapf "validate tcp server address"
                (ForeignError "invalid port"))))
  /\ (trace (Net4.New [WithPort 8080])
      = [EApply 0%nat; EResolveTCPAddr "127.0.0.1:8080"]
          ++ ENewServer "127.0.0.1:8080"
          :: [ESetListenConfig new_ListenConfig]
      /\ Net4.ResolveTCPAddr "127.0.0.1:8080" = None).
Proof.
  split.
  - split; [reflexivity|]. split; [reflexivity|].
    exact (proj1 (proj1 (New_validates_address_first Net4.IP_String
                           Net4.ResolveTCPAddr Net4.NewServer Net4.loopback
                           [WithPort 70000])
                    [EApply 0%nat] (set_port (Some 70000) zero_options)
                    (ForeignError "invalid port") eq_refl eq_refl)).
  - split; [reflexivity|].
    exact (proj1 (proj2 (New_validates_address_first Net4.IP_String
                           Net4.ResolveTCPAddr Net4.NewServer Net4.loopback
                           [WithPort 8080])
                    [EApply 0%nat; EResolveTCPAddr "127.0.0.1:8080"]
                    "127.0.0.1:8080" [ESetListenConfig new_ListenConfig]
                    eq_refl)).
Defined.

Lemma New_without_options_witness :
  (init Net4.ParseIP = Some Net4.loopback
   /\ Net4.IP_String Net4.loopback = "127.0.0.1"
   /\ Net4.ResolveTCPAddr "127.0.0.1:0" = None
   /\ Net4.NewServer "127.0.0.1:0" = None)
  /\ Net4.New []
     = ([EResolveTCPAddr "127.0.0.1:0"; ENewServer "127.0.0.1:0";
         ESetListenConfig new_ListenConfig],
        Ok (mkServer (mkEngine "127.0.0.1:0"))).
Proof.
  split; [repeat split|].
  exact (proj2 (proj2 (New_without_options Net4.ParseIP Net4.IP_String
                         Net4.ResolveTCPAddr Net4.NewServer Net4.loopback
                         eq_refl eq_refl eq_refl eq_refl))).
Defined.

Lemma New_listen_config_drops_defer_accept_witness :
  Net4.New [WithSocketDeferAccept true; WithSocketReusePort true]
  = ([EApply 0%nat; EApply 1%nat; EResolveTCPAddr "127.0.0.1:0";
      ENewServer "127.0.0.1:0";
      ESetListenConfig (mkListenConfig true false 0 false)],
     Ok (mkServer (mkEngine "127.0.0.1:0")))
  /\ exists tr0 built,
       apply_options 0 [WithSocketDeferAccept true; WithSocketReusePort true]
         zero_options = (tr0, Ok built)
       /\ socketDeferAccept built = Some true
       /\ SocketDeferAccept (listen_config built) = false.
Proof.
  split; [reflexivity|].
  destruct (New_listen_config_drops_defer_accept Net4.IP_String
              Net4.ResolveTCPAddr Net4.NewServer Net4.loopback
              [WithSocketDeferAccept true; WithSocketReusePort true]
              _ _ eq_refl)
    as (tr0 & built & Hrun & _ & _ & _ & _ & _ & Hdefer).
  exists tr0, built. split; [exact Hrun|]. split; [|exact Hdefer].
  cbn in Hrun. injection Hrun as _ <-. reflexivity.
Defined.

Lemma New_tunes_exactly_set_knobs_witness :
  Net4.New
    (map Net4.to_Option
       [CallWithLoops 2; CallWithBallast 64;
        CallWithRequestHandler (Some (HandlerFunc 1)); CallWithPort 9000;
        CallWithRequestHandler None])
  = (map EApply (seq 0 5)
       ++ [EResolveTCPAddr "127.0.0.1:9000"; ENewServer "127.0.0.1:9000";
           ESetLoops 2; ESetBallast 64;
           ESetListenConfig new_ListenConfig],
     Ok (mkServer (mkEngine "127.0.0.1:9000")))
  /\ exists tr0 cfg,
       apply_options 0
         (map Net4.to_Option
            [CallWithLoops 2; CallWithBallast 64;
             CallWithRequestHandler (Some (HandlerFunc 1));
             CallWithPort 9000; CallWithRequestHandler None])
         zero_options = (tr0, Ok cfg)
       /\ forall k,
           setter_calls k
             (map EApply (seq 0 5)
                ++ [EResolveTCPAddr "127.0.0.1:9000";
                    ENewServer "127.0.0.1:9000";
                    ESetLoops 2; ESetBallast 64;
                    ESetListenConfig new_ListenConfig])
           = knob_calls k cfg.
Proof.
  split; [reflexivity|].
  destruct (New_tunes_exactly_set_knobs Net4.ParseIP Net4.IP_String
              Net4.ResolveTCPAddr Net4.NewServer Net4.loopback
              [CallWithLoops 2; CallWithBallast 64;
               CallWithRequestHandler (Some (HandlerFunc 1));
               CallWithPort 9000; CallWithRequestHandler None]
              _ _ eq_refl)
    as (tr0 & cfg & Hrun & Hk & _).
  exists tr0, cfg. split; [exact Hrun|].
  intros k. exact (proj1 (Hk k)).
Defined.

(** ** Waiting for a stop signal *)
Module StopFacts.
Import ITree.ITree ITree.ITreeFacts ITree.Events.State
  ITree.Events.StateFacts.
Import ITreeNotations.
Import Stop.
Local Open Scope itree_scope.

(** The signals [AwaitStopSignal] registers are the five stop signals. *)
Lemma relays_stop_signals s :
  relays (Some [Interrupt; SIGINT; SIGTERM; SIGHUP; SIGQUIT; SIGABRT]) s
  = true <-> stop_signal s.
Proof.
  unfold stop_signal, Interrupt, SIGINT, SIGTERM, SIGHUP, SIGQUIT, SIGABRT.
  cbn. rewrite !orb_true_iff, !Z.eqb_eq. intuition discriminate || auto.
Qed.

Lemma relays_other_signals s :
  ~ stop_signal s ->
  relays (Some [Interrupt; SIGINT; SIGTERM; SIGHUP; SIGQUIT; SIGABRT]) s
  = false.
Proof.
  intros H. destruct (relays _ s) eqn:E; [|reflexivity].
  now apply relays_stop_signals in E.
Qed.

Lemma first_relayed_found n pre s post :
  (forall x, In x pre -> relays n x = false) ->
  relays n s = true ->
  first_relayed n (pre ++ s :: post) = Some (s, post).
Proof.
  intros Hpre Hs. induction pre as [|x pre IH]; cbn.
  - now rewrite Hs.
  - rewrite (Hpre x) by (now left).
    apply IH. intros y Hy. apply Hpre. now right.
Qed.

Lemma first_relayed_none n l :
  (forall x, In x l -> relays n x = false) -> first_relayed n l = None.
Proof.
  induction l as [|x l IH]; cbn; intros H; [reflexivity|].
  rewrite (H x) by (now left). apply IH. intros y Hy. apply H. now right.
Qed.

(** The run of [AwaitStopSignal] up to its receive. *)
Lemma AwaitStopSignal_until_receive d p :
  eutt eq
    (interp_state handle (AwaitStopSignal d) p)
    (ITree.bind
       (handle _ Receive
          (mkProcess (pending p)
             (Some [Interrupt; SIGINT; SIGTERM; SIGHUP; SIGQUIT; SIGABRT])
             (calls p
                ++ [CNotify
                      [Interrupt; SIGINT; SIGTERM; SIGHUP; SIGQUIT; SIGABRT]])
             (shutdown_error p)))
       (fun st =>
          interp_state handle
            (err <- ITree.trigger (Shutdown d) ;; Ret (snd st, err))
            (fst st))).
Proof.
  unfold AwaitStopSignal.
  rewrite interp_state_bind, interp_state_trigger. cbn.
  rewrite bind_ret_l. cbn.
  rewrite interp_state_bind, interp_state_trigger. reflexivity.
Qed.

(** C8. [AwaitStopSignal] registers for interrupt, terminate, hangup, quit
    and abort, and for nothing else: signals outside these five pass by.
    Its calls are, in this order: the registration, the receive of the
    first of the five signals to arrive, and one [Shutdown] with the
    timeout it was given; it returns that signal with the error of that
    [Shutdown].  As long as none of the five arrives it stays parked at the
    receive: the registration is then its only call, and [Shutdown] has not
    been called. *)
Theorem AwaitStopSignal_first_stop_signal
  (stopTimeout : Duration) (p : process) :
  (forall pre s post,
      pending p = pre ++ s :: post ->
      (forall x, In x pre -> ~ stop_signal x) ->
      stop_signal s ->
      eutt eq
        (interp_state handle (AwaitStopSignal stopTimeout) p)
        (Ret (mkProcess post
                (Some [Interrupt; SIGINT; SIGTERM; SIGHUP; SIGQUIT; SIGABRT])
                (calls p
                   ++ [CNotify
                         [Interrupt; SIGINT; SIGTERM; SIGHUP; SIGQUIT;
                          SIGABRT];
                       CReceive s;
                       CShutdown stopTimeout])
                (shutdown_error p),
              (s, shutdown_error p stopTimeout))))
  /\ ((forall x, In x (pending p) -> ~ stop_signal x) ->
      eutt eq
        (interp_state handle (AwaitStopSignal stopTimeout) p)
        (parked
           (mkProcess (pending p)
              (Some [Interrupt; SIGINT; SIGTERM; SIGHUP; SIGQUIT; SIGABRT])
              (calls p
                 ++ [CNotify
                       [Interrupt; SIGINT; SIGTERM; SIGHUP; SIGQUIT;
                        SIGABRT]])
              (shutdown_error p)))).
Proof.
  split.
  - intros pre s post Hp Hpre Hs.
    rewrite AwaitStopSignal_until_receive. cbn.
    rewrite Hp, first_relayed_found.
    + rewrite bind_ret_l. cbn.
      rewrite interp_state_bind, interp_state_trigger. cbn.
      rewrite bind_ret_l. cbn. rewrite interp_state_ret.
      rewrite <- !app_assoc. reflexivity.
    + intros x Hx. apply relays_other_signals. now apply Hpre.
    + now apply relays_stop_signals.
  - intros Hnone. rewrite AwaitStopSignal_until_receive. cbn.
    rewrite first_relayed_none.
    + unfold parked. rewrite bind_bind.
      apply eqit_bind; [reflexivity|]. intros [].
    + intros x Hx. apply relays_other_signals. now apply Hnone.
Qed.

(** A process that receives signal 10, then terminate, then interrupt, and
    whose engine answers the shutdown with a timeout error. *)
Lemma AwaitStopSignal_first_stop_signal_witness :
  stop_signal SIGTERM
  /\ ~ stop_signal 10
  /\ eutt eq
       (interp_state handle (AwaitStopSignal 5000000000)
          (mkProcess [10; SIGTERM; SIGINT] None []
             (fun _ => Some (ForeignError "shutdown timed out"))))
       (Ret (mkProcess [SIGINT]
               (Some [Interrupt; SIGINT; SIGTERM; SIGHUP; SIGQUIT; SIGABRT])
               [CNotify
                  [Interrupt; SIGINT; SIGTERM; SIGHUP; SIGQUIT; SIGABRT];
                CReceive SIGTERM;
                CShutdown 5000000000]
               (fun _ => Some (ForeignError "shutdown timed out")),
             (SIGTERM, Some (ForeignError "shutdown timed out")))).
Proof.
  assert (Hterm : stop_signal SIGTERM) by (right; left; reflexivity).
  assert (Hother : ~ stop_signal 10).
  { intros [H | [H | [H | [H | H]]]]; discriminate H. }
  split; [exact Hterm|]. split; [exact Hother|].
  apply (proj1 (AwaitStopSignal_first_stop_signal 5000000000
                  (mkProcess [10; SIGTERM; SIGINT] None []
                     (fun _ => Some (ForeignError "shutdown timed out"))))
           [10] SIGTERM [SIGINT] eq_refl).
  - intros x [<- | []]. exact Hother.
  - exact Hterm.
Defined.

End StopFacts.

(** * Further properties of the package *)

(** ** Guards *)

(** A function returns nil exactly when its call passes the guards, whatever
    the record. *)
Lemma to_Option_valid ParseIP default_host s c :
  snd (to_Option ParseIP default_host s c) = None <-> valid ParseIP s = true.
Proof.
  destruct s; cbn; try tauto.
  - unfold WithHost, UnmarshalText.
    destruct (String.eqb host0 ""), (String.eqb host0 "localhost"); cbn;
      try tauto.
    destruct (ParseIP host0); cbn; split; congruence.
  - unfold WithPort. rewrite Z.leb_antisym.
    destruct (port0 <? 0); cbn; split; congruence.
  - unfold WithSocketFastOpenQueueLen. rewrite Z.leb_antisym.
    destruct (len <? 0); cbn; split; congruence.
  - unfold WithBallast. rewrite Z.ltb_antisym.
    destruct (sizeInMiB <=? 0); cbn; split; congruence.
Qed.

(** A function that returns an error has not touched the record. *)
Lemma to_Option_error_frame ParseIP default_host s c e :
  snd (to_Option ParseIP default_host s c) = Some e ->
  fst (to_Option ParseIP default_host s c) = c.
Proof.
  destruct s; unfold_options; split_conditions; cbn; congruence.
Qed.

(** The loop over valid calls ends well, from every record. *)
Lemma apply_valid_settings ParseIP default_host cs :
  forallb (valid ParseIP) cs = true ->
  forall i c, exists cfg,
    apply_options i (map (to_Option ParseIP default_host) cs) c
    = (map EApply (seq i (List.length cs)), Ok cfg).
Proof.
  induction cs as [|s cs IH]; cbn; intros Hv i c.
  - now exists c.
  - apply andb_true_iff in Hv as [Hs Hcs].
    apply (to_Option_valid ParseIP default_host s c) in Hs.
    destruct (to_Option ParseIP default_host s c) as [c' err]. cbn in Hs.
    subst err. destruct (IH Hcs (S i) c') as [cfg E].
    exists cfg. now rewrite E.
Qed.

(** A loop that ends well went over valid calls only. *)
Lemma apply_settings_Ok_valid ParseIP default_host cs i c tr cfg :
  apply_options i (map (to_Option ParseIP default_host) cs) c = (tr, Ok cfg) ->
  forallb (valid ParseIP) cs = true.
Proof.
  revert i c tr. induction cs as [|s cs IH]; cbn; intros i c tr H;
    [reflexivity|].
  destruct (to_Option ParseIP default_host s c) as [c' [e|]] eqn:Es;
    cbn in H; [discriminate|].
  apply andb_true_iff. split.
  - apply (to_Option_valid ParseIP default_host s c). now rewrite Es.
  - destruct (apply_options (S i) _ c') as [tr' r] eqn:E.
    injection H as _ ->. now apply (IH (S i) c' tr').
Qed.

(** The error of a failing call is the same on every record. *)
Lemma to_Option_error_fixed ParseIP default_host s c c' e e' :
  snd (to_Option ParseIP default_host s c) = Some e ->
  snd (to_Option ParseIP default_host s c') = Some e' ->
  e = e'.
Proof.
  destruct s; unfold_options; split_conditions; cbn in *; congruence.
Qed.

(** The loop ends at the first call that does not pass its guard, with the
    error of that call. *)
Lemma apply_first_invalid ParseIP default_host pre s post i c :
  forallb (valid ParseIP) pre = true ->
  valid ParseIP s = false ->
  exists e,
    snd (to_Option ParseIP default_host s zero_options) = Some e
    /\ apply_options i
         (map (to_Option ParseIP default_host) (pre ++ s :: post)) c
       = (map EApply (seq i (S (List.length pre))), Err e).
Proof.
  intros Hpre Hs.
  destruct (apply_valid_settings ParseIP default_host pre Hpre i c)
    as [c1 Epre].
  assert (Herr : forall o, exists e,
             snd (to_Option ParseIP default_host s o) = Some e).
  { intros o.
    destruct (snd (to_Option ParseIP default_host s o)) as [e|] eqn:E;
      [now exists e|].
    apply to_Option_valid in E. congruence. }
  destruct (Herr c1) as [e He]. destruct (Herr zero_options) as [e0 He0].
  assert (e = e0) as <- by (eapply to_Option_error_fixed; eauto).
  exists e. split; [exact He0|].
  rewrite map_app. cbn [map].
  rewrite (apply_options_first_error _ _ _ _ _ _ _ _ Epre He).
  now rewrite length_map, seq_S, map_app.
Qed.

(** A sequence with an invalid call has a first one. *)
Lemma first_invalid ParseIP cs :
  forallb (valid ParseIP) cs = false ->
  exists pre s post,
    cs = pre ++ s :: post
    /\ forallb (valid ParseIP) pre = true
    /\ valid ParseIP s = false.
Proof.
  induction cs as [|x cs IH]; cbn; [discriminate|].
  destruct (valid ParseIP x) eqn:Ex; cbn.
  - intros H. destruct (IH H) as (pre & s & post & -> & Hpre & Hs).
    exists (x :: pre), s, post. cbn. now rewrite Ex.
  - intros _. now exists [], x, cs.
Qed.

(** X1. Whether the function of a constructor call fails depends on the
    arguments of the call alone, not on the record it is applied to nor on
    the options before it; a failing function leaves the record as it was;
    and the option loop of [New] ends well exactly when every call passes
    its guard, otherwise with the error of the first call that does not. *)
Theorem options_fail_independently ParseIP default_host :
  (forall s c,
      snd (to_Option ParseIP default_host s c) = None
      <-> valid ParseIP s = true)
  /\ (forall s c,
         valid ParseIP s = false ->
         fst (to_Option ParseIP default_host s c) = c)
  /\ (forall cs i c,
         (exists tr cfg,
             apply_options i (map (to_Option ParseIP default_host) cs) c
             = (tr, Ok cfg))
         <-> forallb (valid ParseIP) cs = true)
  /\ (forall pre s post i c,
         forallb (valid ParseIP) pre = true ->
         valid ParseIP s = false ->
         exists e,
           snd (to_Option ParseIP default_host s zero_options) = Some e
           /\ outcome
                (apply_options i
                   (map (to_Option ParseIP default_host) (pre ++ s :: post))
                   c)
              = Err e).
Proof.
  split; [|split; [|split]].
  - intros s c. apply to_Option_valid.
  - intros s c Hs.
    destruct (snd (to_Option ParseIP default_host s c)) as [e|] eqn:E.
    + now apply to_Option_error_frame with e.
    + apply to_Option_valid in E. congruence.
  - intros cs i c. split.
    + intros (tr & cfg & H). now apply apply_settings_Ok_valid in H.
    + intros Hv.
      destruct (apply_valid_settings ParseIP default_host cs Hv i c)
        as [cfg E].
      eauto.
  - intros pre s post i c Hpre Hs.
    destruct (apply_first_invalid ParseIP default_host pre s post i c
                Hpre Hs) as (e & He & Hrun).
    exists e. split; [exact He|]. now rewrite Hrun.
Qed.

Lemma options_fail_independently_witness :
  valid Net4.ParseIP (CallWithBallast 0) = false
  /\ forallb (valid Net4.ParseIP) [CallWithPort 80; CallWithLoops (-1)] = true
  /\ fst (Net4.to_Option (CallWithBallast 0)
            (set_ballast (Some 7) zero_options))
     = set_ballast (Some 7) zero_options
  /\ exists e,
       snd (Net4.to_Option (CallWithBallast 0) zero_options) = Some e
       /\ outcome
            (apply_options 0
               (map Net4.to_Option
                  ([CallWithPort 80; CallWithLoops (-1)]
                     ++ CallWithBallast 0 :: [CallWithPort (-1)]))
               zero_options)
          = Err e.
Proof.
  split; [reflexivity|]. split; [reflexivity|].
  destruct (options_fail_independently Net4.ParseIP Net4.loopback)
    as (_ & Hframe & _ & Hfirst).
  split.
  - exact (Hframe (CallWithBallast 0) (set_ballast (Some 7) zero_options)
             eq_refl).
  - exact (Hfirst [CallWithPort 80; CallWithLoops (-1)] (CallWithBallast 0)
             [CallWithPort (-1)] 0%nat zero_options eq_refl eq_refl).
Defined.

(** ** Invariants of the built record *)

(** X2. In every record the option loop builds from constructor calls, a
    port that is set is not negative, a fast-open queue length that is set
    is not negative, a ballast that is set is positive, and a host that is
    set is the package default or an IP that [net.ParseIP] returned. *)
Theorem built_record_bounds ParseIP default_host (cs : list setting) tr cfg :
  apply_options 0 (map (to_Option ParseIP default_host) cs) zero_options
  = (tr, Ok cfg) ->
  (forall p, port cfg = Some p -> 0 <= p)
  /\ (forall n, socketFastOpenQueueLen cfg = Some n -> 0 <= n)
  /\ (forall n, ballast cfg = Some n -> 0 < n)
  /\ (forall ip, host cfg = Some ip ->
                 ip = default_host \/ exists h, ParseIP h = Some ip).
Proof.
  intros Hrun.
  apply (apply_options_invariant
           (fun o =>
              (forall p, port o = Some p -> 0 <= p)
              /\ (forall n, socketFastOpenQueueLen o = Some n -> 0 <= n)
              /\ (forall n, ballast o = Some n -> 0 < n)
              /\ (forall ip, host o = Some ip ->
                             ip = default_host
                             \/ exists h, ParseIP h = Some ip))
           (map (to_Option ParseIP default_host) cs))
    with 0%nat zero_options tr.
  - intros o c c' Ho Hc (Hp & Hq & Hb & Hh).
    apply in_map_iff in Ho as (s & <- & _).
    destruct s; unfold_options; split_conditions;
      try discriminate; injection Hc as <-; cbn;
      repeat split; auto; intros x [= <-]; try lia; eauto.
  - exact Hrun.
  - cbn. repeat split; discriminate.
Qed.

Lemma built_record_bounds_witness :
  apply_options 0
    (map Net4.to_Option
       [CallWithPort 0; CallWithBallast 1; CallWithHost "192.168.0.9";
        CallWithSocketFastOpenQueueLen 0])
    zero_options
  = (map EApply (seq 0 4),
     Ok (mkOptions
           (Some (Net4.v4InV6Prefix ++ [xc0; xa8; x00; x09])) (Some 0)
           None None (Some 0) None None None None (Some 1) None))
  /\ (forall n, Some 1 = Some n -> 0 < n).
Proof.
  split; [reflexivity|].
  exact (proj1 (proj2 (proj2
           (built_record_bounds Net4.ParseIP Net4.loopback
              [CallWithPort 0; CallWithBallast 1; CallWithHost "192.168.0.9";
               CallWithSocketFastOpenQueueLen 0]
              _ _ eq_refl)))).
Defined.

(** ** The record as a function of the last writers *)

(** A record is known by its fields. *)
Lemma get_ext (a b : options) : (forall f, get f a = get f b) -> a = b.
Proof.
  intros H. destruct a, b.
  pose proof (H Fhost) as H1. pose proof (H Fport) as H2.
  pose proof (H FsocketReusePort) as H3.
  pose proof (H FsocketFastOpen) as H4.
  pose proof (H FsocketFastOpenQueueLen) as H5.
  pose proof (H FsocketDeferAccept) as H6. pose proof (H Floops) as H7.
  pose proof (H FworkerpoolShards) as H8.
  pose proof (H FallowThreadLocking) as H9.
  pose proof (H Fballast) as H10. pose proof (H Fhandler) as H11.
  cbn in *. congruence.
Qed.

Lemma last_writer_app f a b :
  last_writer f (a ++ b)
  = match last_writer f b with
    | Some s => Some s
    | None => last_writer f a
    end.
Proof.
  unfold last_writer. rewrite rev_app_distr.
  induction (rev b) as [|x l IH]; cbn; [reflexivity|].
  now destruct (field_eqb (target x) f).
Qed.

Lemma last_writer_one f s :
  last_writer f [s] = if field_eqb (target s) f then Some s else None.
Proof. reflexivity. Qed.

Lemma last_writer_None f cs :
  last_writer f cs = None -> forall s, In s cs -> target s <> f.
Proof.
  unfold last_writer. intros H s Hs Hf.
  apply in_rev in Hs. apply (find_none _ _ H s) in Hs.
  apply field_eqb_eq in Hf. congruence.
Qed.

Lemma last_writer_Some f cs s :
  last_writer f cs = Some s ->
  exists pre post,
    cs = pre ++ s :: post /\ target s = f /\
    forall s', In s' post -> target s' <> f.
Proof.
  induction cs as [|x cs IH] using rev_ind; [discriminate|].
  rewrite last_writer_app, last_writer_one.
  destruct (field_eqb (target x) f) eqn:E.
  - intros [= <-]. exists cs, []. apply field_eqb_eq in E.
    repeat split; auto; intros s' [].
  - intros H. destruct (IH H) as (pre & post & -> & Ht & Hpost).
    exists pre, (post ++ [x]). rewrite <- app_assoc. repeat split; auto.
    intros s' Hs'. apply in_app_or in Hs' as [Hs' | [<- | []]]; auto.
    intros Hx. apply field_eqb_eq in Hx. congruence.
Qed.

(** Each field of the built record is what its last writer writes, or what
    it was when no call targets it. *)
Lemma built_field ParseIP default_host cs c tr cfg f :
  apply_options 0 (map (to_Option ParseIP default_host) cs) c
  = (tr, Ok cfg) ->
  get f cfg
  = match last_writer f cs with
    | Some s => get f (fst (to_Option ParseIP default_host s zero_options))
    | None => get f c
    end.
Proof.
  intros Hrun. destruct (last_writer f cs) as [s|] eqn:E.
  - apply last_writer_Some in E as (pre & post & -> & <- & Hpost).
    destruct (apply_settings_last_write _ _ _ _ _ _ _ _ Hrun Hpost)
      as (c1 & c2 & Hs & ->).
    symmetry. now apply (to_Option_written _ _ _ _ _ zero_options) in Hs.
  - eapply apply_settings_frame; eauto. now apply last_writer_None.
Qed.

(** Two sequences with the same last writers build the same record. *)
Lemma same_last_writers ParseIP default_host cs cs' c tr cfg tr' cfg' :
  apply_options 0 (map (to_Option ParseIP default_host) cs) c
  = (tr, Ok cfg) ->
  apply_options 0 (map (to_Option ParseIP default_host) cs') c
  = (tr', Ok cfg') ->
  (forall f, last_writer f cs = last_writer f cs') ->
  cfg = cfg'.
Proof.
  intros H H' Hlast. apply get_ext. intros f.
  rewrite (built_field _ _ _ _ _ _ f H), (built_field _ _ _ _ _ _ f H').
  now rewrite Hlast.
Qed.

(** With pairwise distinct targets, a call is known by its target. *)
Lemma distinct_targets_unique cs s s' :
  NoDup (map target cs) -> In s cs -> In s' cs -> target s = target s' ->
  s = s'.
Proof.
  induction cs as [|x cs IH]; cbn; intros Hnd Hs Hs' Ht; [destruct Hs|].
  inversion Hnd as [|? ? Hx Hcs]; subst.
  destruct Hs as [-> | Hs], Hs' as [-> | Hs']; auto.
  - exfalso. apply Hx. rewrite Ht. now apply in_map.
  - exfalso. apply Hx. rewrite <- Ht. now apply in_map.
Qed.

Lemma last_writer_distinct f cs s :
  NoDup (map target cs) -> In s cs -> target s = f ->
  last_writer f cs = Some s.
Proof.
  intros Hnd Hs Hf. destruct (last_writer f cs) as [s'|] eqn:E.
  - f_equal. apply last_writer_Some in E as (pre & post & -> & Ht & _).
    apply (distinct_targets_unique _ _ _ Hnd); [| exact Hs | congruence].
    apply in_or_app. right. now left.
  - now apply (last_writer_None _ _ E) in Hs.
Qed.

Lemma last_writer_permutation f cs cs' :
  NoDup (map target cs) -> Permutation cs cs' ->
  last_writer f cs = last_writer f cs'.
Proof.
  intros Hnd Hperm.
  assert (Hnd' : NoDup (map target cs')).
  { eapply Permutation_NoDup; [|exact Hnd]. now apply Permutation_map. }
  destruct (last_writer f cs) as [s|] eqn:E.
  - apply last_writer_Some in E as (pre & post & -> & Ht & _).
    symmetry. apply last_writer_distinct; auto.
    apply (Permutation_in _ Hperm). apply in_or_app. right. now left.
  - destruct (last_writer f cs') as [s'|] eqn:E'; [|reflexivity].
    apply last_writer_Some in E' as (pre & post & -> & Ht & _).
    exfalso. apply (last_writer_None _ _ E s'); [|exact Ht].
    apply (Permutation_in _ (Permutation_sym Hperm)).
    apply in_or_app. right. now left.
Qed.

(** X3. Options on different fields can be given in any order: for valid
    constructor calls with pairwise distinct target fields, [New] on a
    permutation of the calls makes the same external calls and returns the
    same result. *)
Theorem New_order_irrelevant
  ParseIP IP_String ResolveTCPAddr NewServer default_host
  (cs cs' : list setting) :
  NoDup (map target cs) ->
  forallb (valid ParseIP) cs = true ->
  Permutation cs cs' ->
  New IP_String ResolveTCPAddr NewServer default_host
    (map (to_Option ParseIP default_host) cs)
  = New IP_String ResolveTCPAddr NewServer default_host
      (map (to_Option ParseIP default_host) cs').
Proof.
  intros Hnd Hv Hperm.
  assert (Hv' : forallb (valid ParseIP) cs' = true).
  { rewrite forallb_forall in Hv |- *. intros s Hs. apply Hv.
    now apply (Permutation_in _ (Permutation_sym Hperm)). }
  destruct (apply_valid_settings ParseIP default_host cs Hv 0%nat
              zero_options) as [cfg E].
  destruct (apply_valid_settings ParseIP default_host cs' Hv' 0%nat
              zero_options) as [cfg' E'].
  assert (cfg = cfg') as <-.
  { apply (same_last_writers _ _ _ _ _ _ _ _ _ E E').
    intros f. now apply last_writer_permutation. }
  unfold New. rewrite E, E'. now rewrite (Permutation_length Hperm).
Qed.

Lemma New_order_irrelevant_witness :
  Net4.New
    (map Net4.to_Option
       [CallWithPort 8080; CallWithHost "10.0.0.7"; CallWithLoops 2])
  = Net4.New
      (map Net4.to_Option
         [CallWithLoops 2; CallWithPort 8080; CallWithHost "10.0.0.7"]).
Proof.
  apply (New_order_irrelevant Net4.ParseIP Net4.IP_String
           Net4.ResolveTCPAddr Net4.NewServer Net4.loopback
           [CallWithPort 8080; CallWithHost "10.0.0.7"; CallWithLoops 2]
           [CallWithLoops 2; CallWithPort 8080; CallWithHost "10.0.0.7"]).
  - repeat constructor; cbn; intuition discriminate.
  - reflexivity.
  - apply Permutation_sym.
    apply (Permutation_cons_app
             [CallWithPort 8080; CallWithHost "10.0.0.7"] []
             (CallWithLoops 2)).
    rewrite app_nil_r. apply Permutation_refl.
Defined.

(** X4. A call that a later call on the same field overrides has no effect
    on the built record: when the loop ends well on a sequence in which [s1]
    is followed, at any distance, by a call [s2] with the same target, it
    ends well with the same record on the sequence without [s1]. *)
Theorem overridden_call_is_dead ParseIP default_host
  (pre : list setting) (s1 : setting) (mid : list setting) (s2 : setting)
  (post : list setting) tr cfg :
  target s1 = target s2 ->
  apply_options 0
    (map (to_Option ParseIP default_host)
       (pre ++ s1 :: mid ++ s2 :: post))
    zero_options = (tr, Ok cfg) ->
  exists tr',
    apply_options 0
      (map (to_Option ParseIP default_host) (pre ++ mid ++ s2 :: post))
      zero_options = (tr', Ok cfg).
Proof.
  intros Ht Hrun.
  assert (Hv : forallb (valid ParseIP) (pre ++ s1 :: mid ++ s2 :: post)
               = true).
  { now apply apply_settings_Ok_valid in Hrun. }
  assert (Hv' : forallb (valid ParseIP) (pre ++ mid ++ s2 :: post) = true).
  { rewrite forallb_app in Hv |- *. cbn [forallb] in Hv.
    apply andb_true_iff in Hv as [Hpre Hrest].
    apply andb_true_iff in Hrest as [_ Hrest]. now rewrite Hpre, Hrest. }
  destruct (apply_valid_settings ParseIP default_host _ Hv' 0%nat
              zero_options) as [cfg' E'].
  exists (map EApply (seq 0 (List.length (pre ++ mid ++ s2 :: post)))).
  rewrite E'. do 2 f_equal.
  apply (same_last_writers _ _ _ _ _ _ _ _ _ E' Hrun). intros f.
  change (s1 :: mid ++ s2 :: post) with ([s1] ++ (mid ++ s2 :: post)).
  rewrite !(last_writer_app f pre), (last_writer_app f [s1]).
  destruct (last_writer f (mid ++ s2 :: post)) as [s|] eqn:E; [reflexivity|].
  rewrite last_writer_one.
  destruct (field_eqb (target s1) f) eqn:Ef; [|reflexivity].
  apply field_eqb_eq in Ef. exfalso.
  apply (last_writer_None _ _ E s2); [|congruence].
  apply in_or_app. right. now left.
Qed.

Lemma overridden_call_is_dead_witness :
  apply_options 0
    (map Net4.to_Option
       ([CallWithLoops 1] ++ CallWithPort 80 :: [CallWithBallast 3]
          ++ CallWithPort 8080 :: [CallWithSocketFastOpen true]))
    zero_options
  = (map EApply (seq 0 5),
     Ok (mkOptions None (Some 8080) None (Some true) None None (Some 1)
           None None (Some 3) None))
  /\ exists tr',
       apply_options 0
         (map Net4.to_Option
            ([CallWithLoops 1] ++ [CallWithBallast 3]
               ++ CallWithPort 8080 :: [CallWithSocketFastOpen true]))
         zero_options
       = (tr',
          Ok (mkOptions None (Some 8080) None (Some true) None None (Some 1)
                None None (Some 3) None)).
Proof.
  split; [reflexivity|].
  exact (overridden_call_is_dead Net4.ParseIP Net4.loopback
           [CallWithLoops 1] (CallWithPort 80) [CallWithBallast 3]
           (CallWithPort 8080) [CallWithSocketFastOpen true] _ _
           eq_refl eq_refl).
Defined.

(** ** The ways [New] ends *)

Section NewOutcomes.

Variable IP_String : IP -> string.
Variable ResolveTCPAddr : string -> option error.
Variable NewServer : string -> option error.
Variable default_host : IP.

Local Abbreviation addr := (address_of IP_String default_host).
Local Abbreviation new := (New IP_String ResolveTCPAddr NewServer default_host).

(** X5. When the options return nil and the address resolves but the
    engine's constructor rejects it, [New] returns the constructor's error
    wrapped as "creates a new server instance" and no server; the
    constructor call is its last call: no setter and no listen
    configuration reach an engine. *)
Theorem New_engine_rejected (opts : list Option) tr cfg err :
  apply_options 0 opts zero_options = (tr, Ok cfg) ->
  ResolveTCPAddr (addr cfg) = None ->
  NewServer (addr cfg) = Some err ->
  new opts
  = (tr ++ [EResolveTCPAddr (addr cfg); ENewServer (addr cfg)],
     Err (Wrapf "creates a new server instance" err))
  /\ (forall k, setter_calls k (trace (new opts)) = [])
  /\ (forall lc, ~ In (ESetListenConfig lc) (trace (new opts))).
Proof.
  intros Hrun Hres Hnew.
  assert (E : new opts
              = (tr ++ [EResolveTCPAddr (addr cfg); ENewServer (addr cfg)],
                 Err (Wrapf "creates a new server instance" err))).
  { unfold New. rewrite (bind_Ok _ _ _ _ Hrun).
    now rewrite (construct_not_created _ _ _ _ _ _ Hres Hnew). }
  pose proof (apply_options_only_EApply opts 0 zero_options) as Hloop.
  rewrite Hrun in Hloop. cbn in Hloop.
  split; [exact E|]. rewrite E. cbn [trace fst]. split.
  - intros k. unfold setter_calls. rewrite filter_app.
    fold (setter_calls k tr). rewrite (EApply_no_setter k tr Hloop).
    now destruct k.
  - intros lc Hin. apply in_app_or in Hin as [Hin | Hin].
    + rewrite forallb_forall in Hloop. now apply Hloop in Hin.
    + destruct Hin as [Hin | [Hin | []]]; discriminate.
Qed.

(** X6. When [New] returns a server, every option has returned nil, the
    address of the built record has resolved and the engine's constructor
    has accepted it.  [New] has then called every option once, in the order
    given, validated the address, created the engine for that same address,
    which the server carries, called the setters of the set knobs in the
    order loops, shards, thread locking, ballast, handler, and handed over
    the listen configuration last. *)
Theorem New_success (opts : list Option) tr s :
  new opts = (tr, Ok s) ->
  exists cfg,
    outcome (apply_options 0 opts zero_options) = Ok cfg
    /\ ResolveTCPAddr (addr cfg) = None
    /\ NewServer (addr cfg) = None
    /\ listenAddr (srv s) = addr cfg
    /\ tr = map EApply (seq 0 (List.length opts))
              ++ [EResolveTCPAddr (addr cfg); ENewServer (addr cfg)]
              ++ tuning cfg ++ [ESetListenConfig (listen_config cfg)].
Proof.
  intros HN.
  apply New_Ok_inv in HN as (tr0 & cfg & Hrun & Hres & Hnew & -> & ->).
  exists cfg. rewrite Hrun.
  rewrite (apply_options_Ok_trace _ _ _ _ _ Hrun). auto.
Qed.

End NewOutcomes.

Lemma New_engine_rejected_witness :
  apply_options 0 [WithLoops 4] zero_options
  = ([EApply 0%nat], Ok (set_loops (Some 4) zero_options))
  /\ New Net4.IP_String Net4.ResolveTCPAddr
       (fun _ => Some (ForeignError "out of memory")) Net4.loopback
       [WithLoops 4]
     = ([EApply 0%nat; EResolveTCPAddr "127.0.0.1:0";
         ENewServer "127.0.0.1:0"],
        Err (Wrapf "creates a new server instance"
               (ForeignError "out of memory"))).
Proof.
  split; [reflexivity|].
  exact (proj1 (New_engine_rejected Net4.IP_String Net4.ResolveTCPAddr
                  (fun _ => Some (ForeignError "out of memory"))
                  Net4.loopback [WithLoops 4] _ _ _
                  eq_refl eq_refl eq_refl)).
Defined.

Lemma New_success_witness :
  Net4.New [WithAllowThreadLocking true; WithPort 443; WithLoops 4]
  = (map EApply (seq 0 3)
       ++ [EResolveTCPAddr "127.0.0.1:443"; ENewServer "127.0.0.1:443"]
       ++ [ESetLoops 4; ESetAllowThreadLocking true]
       ++ [ESetListenConfig new_ListenConfig],
     Ok (mkServer (mkEngine "127.0.0.1:443")))
  /\ exists cfg,
       outcome (apply_options 0
                  [WithAllowThreadLocking true; WithPort 443; WithLoops 4]
                  zero_options) = Ok cfg
       /\ listenAddr (srv (mkServer (mkEngine "127.0.0.1:443")))
          = address_of Net4.IP_String Net4.loopback cfg.
Proof.
  split; [reflexivity|].
  destruct (New_success Net4.IP_String Net4.ResolveTCPAddr
              Net4.NewServer Net4.loopback
              [WithAllowThreadLocking true; WithPort 443; WithLoops 4]
              _ _ eq_refl)
    as (cfg & Hcfg & _ & _ & Haddr & _).
  exists cfg. split; [exact Hcfg | exact Haddr].
Defined.

(** ** The text of the address *)

Lemma has_colon_app a b :
  has_colon (a ++ ":" ++ b)%string = true.
Proof.
  induction a as [|c a IH]; cbn in *; [reflexivity|].
  now rewrite IH, orb_true_r.
Qed.

Lemma string_of_uint_no_colon u :
  has_colon (NilEmpty.string_of_uint u) = false.
Proof. induction u; cbn; auto. Qed.

Lemma string_of_int_no_colon i :
  has_colon (NilEmpty.string_of_int i) = false.
Proof. destruct i; cbn; apply string_of_uint_no_colon. Qed.

(** A text is cut at its last colon in one way only. *)
Lemma last_colon_unique h1 d1 h2 d2 :
  has_colon d1 = false -> has_colon d2 = false ->
  (h1 ++ ":" ++ d1)%string = (h2 ++ ":" ++ d2)%string ->
  h1 = h2 /\ d1 = d2.
Proof.
  intros H1 H2. revert h2.
  induction h1 as [|c1 h1 IH]; intros [|c2 h2]; cbn; intros E.
  - injection E as ->. auto.
  - injection E as <- ->.
    pose proof (has_colon_app h2 d2) as H. cbn in H. congruence.
  - injection E as -> <-.
    pose proof (has_colon_app h1 d1) as H. cbn in H. congruence.
  - injection E as -> E. destruct (IH _ E) as [-> ->]. auto.
Qed.

(** X7. The address text [New] validates determines the host text and the
    port it was made from: two records with the same address have hosts
    that print alike and the same port (the default host and port 0
    standing in for unset fields). *)
Theorem address_determines_host_and_port
  IP_String default_host (o1 o2 : options) :
  address_of IP_String default_host o1
  = address_of IP_String default_host o2 ->
  IP_String (match host o1 with Some h => h | None => default_host end)
  = IP_String (match host o2 with Some h => h | None => default_host end)
  /\ match port o1 with Some p => p | None => 0 end
     = match port o2 with Some p => p | None => 0 end.
Proof.
  unfold address_of, Sprintf_s_d. intros E.
  apply last_colon_unique in E as [Hh Hp];
    try apply string_of_int_no_colon.
  split; [exact Hh|].
  apply DecimalZ.to_int_inj.
  assert (H : forall i j,
             NilEmpty.string_of_int i = NilEmpty.string_of_int j -> i = j).
  { intros i j Hij.
    pose proof (NilEmpty.isi i) as Hi. rewrite Hij, NilEmpty.isi in Hi.
    congruence. }
  now apply H.
Qed.

Lemma address_determines_host_and_port_witness :
  address_of Net4.IP_String Net4.loopback
    (set_port (Some 0) zero_options)
  = address_of Net4.IP_String Net4.loopback
      (set_host (Some Net4.loopback) zero_options)
  /\ match port (set_port (Some 0) zero_options) with
     | Some p => p
     | None => 0
     end
     = match port (set_host (Some Net4.loopback) zero_options) with
       | Some p => p
       | None => 0
       end.
Proof.
  split; [reflexivity|].
  exact (proj2 (address_determines_host_and_port Net4.IP_String
                  Net4.loopback (set_port (Some 0) zero_options)
                  (set_host (Some Net4.loopback) zero_options) eq_refl)).
Defined.

(** ** Starting the server *)
Module LifecycleFacts.
Import ITree.ITree ITree.ITreeFacts ITree.Events.State
  ITree.Events.StateFacts.
Import ITreeNotations.
Import Lifecycle.
Local Open Scope itree_scope.

(** X8. [Start] calls [Listen] once.  When [Listen] fails, [Start] returns
    its error wrapped as "error listening on interface" and launches no
    [Serve] goroutine; when [Listen] succeeds, [Start] launches one [Serve]
    goroutine and returns nil without waiting for it. *)
Theorem Start_listens_then_serves (st : engine) :
  exists st' r,
    eutt eq (interp_state handle Start st) (Ret (st', r))
    /\ listen_calls st' = S (listen_calls st)
    /\ (forall e, listen_error st = Some e ->
                  r = Some (Wrapf "error listening on interface" e)
                  /\ serve_goroutines st' = serve_goroutines st)
    /\ (listen_error st = None ->
        r = None /\ serve_goroutines st' = S (serve_goroutines st)).
Proof.
  unfold Start. destruct (listen_error st) as [e|] eqn:E.
  - exists (mkEngineState (listen_error st) (S (listen_calls st))
              (serve_goroutines st)),
      (Some (Wrapf "error listening on interface" e)).
    split; [|split; [reflexivity|split]].
    + rewrite interp_state_bind, interp_state_trigger. cbn.
      rewrite bind_ret_l. cbn. rewrite E, interp_state_ret. reflexivity.
    + intros e' [= <-]. auto.
    + discriminate.
  - exists (mkEngineState (listen_error st) (S (listen_calls st))
              (S (serve_goroutines st))), None.
    split; [|split; [reflexivity|split]].
    + rewrite interp_state_bind, interp_state_trigger. cbn.
      rewrite bind_ret_l. cbn. rewrite E.
      rewrite interp_state_bind, interp_state_trigger. cbn.
      rewrite bind_ret_l. cbn. rewrite interp_state_ret. reflexivity.
    + discriminate.
    + auto.
Qed.

Lemma Start_listens_then_serves_witness :
  exists st' r,
    eutt eq
      (interp_state handle Start
         (mkEngineState (Some (ForeignError "address already in use")) 0 0))
      (Ret (st', r))
    /\ r = Some (Wrapf "error listening on interface"
                   (ForeignError "address already in use"))
    /\ serve_goroutines st' = 0%nat.
Proof.
  destruct (Start_listens_then_serves
              (mkEngineState (Some (ForeignError "address already in use"))
                 0 0))
    as (st' & r & Hrun & _ & Hfail & _).
  exists st', r. split; [exact Hrun|]. exact (Hfail _ eq_refl).
Defined.

End LifecycleFacts.

(** ** Invalid calls never reach the network *)

(** X9. When some constructor call of the sequence does not pass its guard,
    [New] returns the error of the first such call, as the option made it
    (not wrapped), and no server; it has called the options up to that one
    and nothing else: no address was resolved and no engine created. *)
Theorem New_invalid_call_stops_before_network
  ParseIP IP_String ResolveTCPAddr NewServer default_host
  (cs : list setting) :
  forallb (valid ParseIP) cs = false ->
  exists pre s post e,
    cs = pre ++ s :: post
    /\ forallb (valid ParseIP) pre = true
    /\ valid ParseIP s = false
    /\ snd (to_Option ParseIP default_host s zero_options) = Some e
    /\ New IP_String ResolveTCPAddr NewServer default_host
         (map (to_Option ParseIP default_host) cs)
       = (map EApply (seq 0 (S (List.length pre))), Err e).
Proof.
  intros H. apply first_invalid in H as (pre & s & post & -> & Hpre & Hs).
  destruct (apply_first_invalid ParseIP default_host pre s post 0%nat
              zero_options Hpre Hs) as (e & He & Hrun).
  exists pre, s, post, e. repeat (split; [assumption || reflexivity|]).
  unfold New. now rewrite (bind_Err _ _ _ _ Hrun).
Qed.

Lemma New_invalid_call_stops_before_network_witness :
  forallb (valid Net4.ParseIP)
    [CallWithHost "10.0.0.7"; CallWithPort (-1); CallWithBallast 0] = false
  /\ exists pre s post e,
       [CallWithHost "10.0.0.7"; CallWithPort (-1); CallWithBallast 0]
       = pre ++ s :: post
       /\ forallb (valid Net4.ParseIP) pre = true
       /\ valid Net4.ParseIP s = false
       /\ snd (Net4.to_Option s zero_options) = Some e
       /\ Net4.New
            (map Net4.to_Option
               [CallWithHost "10.0.0.7"; CallWithPort (-1);
                CallWithBallast 0])
          = (map EApply (seq 0 (S (List.length pre))), Err e).
Proof.
  split; [reflexivity|].
  exact (New_invalid_call_stops_before_network Net4.ParseIP Net4.IP_String
           Net4.ResolveTCPAddr Net4.NewServer Net4.loopback
           [CallWithHost "10.0.0.7"; CallWithPort (-1); CallWithBallast 0]
           eq_refl).
Defined.
